(** * Sequence tracker of the content generator (db_manager.py)

    A shallow embedding of the three tracker operations of
    [db_manager.py] -- [log_idea], [get_current_day] and
    [check_for_duplication] -- over an explicit model of the [ideas_log]
    table, the wall clock and the failures of the SQLite layer.

    The table is the one [setup_database] creates, with its two CHECK
    constraints.  Each operation runs inside [with sqlite3.connect(...)],
    whose transaction is rolled back when the block is left by an
    exception.  A statement is prepared, then its parameters are bound,
    then it runs: a storage fault of a call is raised before a parameter
    of that call is found to have no UTF-8 encoding.  What the operations
    print is not part of the model. *)

From Stdlib Require Import ZArith NArith List Bool String Ascii Lia.
From Stdlib Require Import Permutation Sorted RelationClasses.
Import ListNotations.
Open Scope Z_scope.

(** ** Python text

    A Python [str] is a sequence of Unicode code points.  [strip()] without
    argument removes, at both ends, the characters for which [str.isspace]
    holds; SQLite's [LOWER] folds the ASCII letters only and compares TEXT
    values code point by code point. *)

Module Text.

Definition str := list N.

(** A literal of the source, written as a Rocq string of ASCII characters. *)
Definition lit (s : string) : str := map N_of_ascii (list_ascii_of_string s).

Definition isspace (c : N) : bool :=
  ((9 <=? c) && (c <=? 13) || (28 <=? c) && (c <=? 32)
   || (c =? 133) || (c =? 160) || (c =? 5760)
   || (8192 <=? c) && (c <=? 8202)
   || (c =? 8232) || (c =? 8233) || (c =? 8239) || (c =? 8287)
   || (c =? 12288))%N.

Fixpoint lstrip (s : str) : str :=
  match s with
  | c :: s' => if isspace c then lstrip s' else s
  | [] => []
  end.

Definition rstrip (s : str) : str := rev (lstrip (rev s)).

Definition strip (s : str) : str := rstrip (lstrip s).

(** [not s] of Python: only the empty string is falsy. *)
Definition falsy (s : str) : bool :=
  match s with [] => true | _ :: _ => false end.

(** The guard [not s or not s.strip()] of the three operations. *)
Definition missing (s : str) : bool := falsy s || falsy (strip s).

Fixpoint eqb (a b : str) : bool :=
  match a, b with
  | [], [] => true
  | x :: a', y :: b' => N.eqb x y && eqb a' b'
  | _, _ => false
  end.

Definition lower_char (c : N) : N :=
  if ((65 <=? c) && (c <=? 90))%N then (c + 32)%N else c.

(** SQL [LOWER(x)]. *)
Definition LOWER (s : str) : str := map lower_char s.

(** The code points U+D800..U+DFFF.  A [str] may hold one on its own (a
    JSON escape decodes to it), but UTF-8 has no encoding for it. *)
Definition surrogate (c : N) : bool := ((55296 <=? c) && (c <=? 57343))%N.

(** The texts [sqlite3] can bind as a parameter: those it can encode as
    UTF-8. *)
Definition bindable (s : str) : bool := forallb (fun c => negb (surrogate c)) s.

End Text.

Import Text.

(** ** The [ideas_log] table *)

(** [generation_date] holds [strftime('%Y-%m-%d')] of the local date and is
    only ever tested for equality; the model keeps the ordinal of that
    calendar day.  [created_at] is the instant of the write. *)
Definition date := Z.
Definition timestamp := Z.

Record Row : Type := mkRow {
  id : Z;
  title : str;
  niche : str;
  continuation_day : Z;
  created_at : timestamp;
  generation_date : date
}.

(** The table in rowid order, with the AUTOINCREMENT counter that SQLite
    keeps in [sqlite_sequence]. *)
Record database : Type := mkDb {
  ideas_log : list Row;
  sqlite_sequence : Z
}.

Definition empty_db : database := mkDb [] 0.

(** [CHECK (niche IN ('MMO', 'AI/Tech', 'Faceless'))] *)
Definition NICHES : list str := [lit "MMO"; lit "AI/Tech"; lit "Faceless"].

Definition check_niche (n : str) : bool := existsb (Text.eqb n) NICHES.

(** [CHECK (continuation_day > 0)] *)
Definition check_continuation_day (d : Z) : bool := 0 <? d.

(** A Python [int] is bound to an SQLite INTEGER only if it fits 64 bits. *)
Definition fits_int64 (d : Z) : bool := (- 2 ^ 63 <=? d) && (d <? 2 ^ 63).

(** ** Outcomes of Python calls *)

Inductive exn : Type :=
| ValueError (msg : string)
| OperationalError          (* sqlite3.Error: the storage layer failed *)
| IntegrityError            (* sqlite3.Error: a CHECK constraint failed *)
| OverflowError             (* int too large to convert to SQLite INTEGER *)
| UnicodeEncodeError.       (* a text parameter that has no UTF-8 encoding *)

Inductive outcome (A : Type) : Type :=
| Returns (a : A)
| Raises (x : exn).

Arguments Returns {A} a.
Arguments Raises {A} x.

(** [isinstance(x, ValueError)]: [UnicodeEncodeError] is a subclass of
    [ValueError]. *)
Definition value_error (x : exn) : bool :=
  match x with
  | ValueError _ | UnicodeEncodeError => true
  | _ => false
  end.

(** ** The world outside the process: clock and storage faults

    [today] is [datetime.now().strftime('%Y-%m-%d')], [now] is
    [datetime.now().isoformat()], and [faults k] tells whether the [k]-th
    call into the storage layer made by the running operation (connect is
    call 0) raises [sqlite3.Error]. *)
Record env : Type := mkEnv {
  today : date;
  now : timestamp;
  faults : nat -> bool
}.

Definition storage_ok (e : env) : Prop := forall k, faults e k = false.

(** ** A connection: state and error monad of the [with] block *)

Record conn : Type := mkConn {
  committed : database;   (* what a rollback returns to *)
  working : database;     (* what the open transaction sees *)
  calls : nat             (* storage calls made so far *)
}.

Definition Sql (A : Type) : Type := conn -> outcome A * conn.

Definition ret {A} (a : A) : Sql A := fun c => (Returns a, c).

Definition raise {A} (x : exn) : Sql A := fun c => (Raises x, c).

Definition bind {A B} (m : Sql A) (k : A -> Sql B) : Sql B :=
  fun c =>
    match m c with
    | (Returns a, c') => k a c'
    | (Raises x, c') => (Raises x, c')
    end.

Notation "x <- m ;; k" := (bind m (fun x => k))
  (at level 61, m at next level, right associativity).
Notation "m ;;; k" := (bind m (fun _ => k))
  (at level 61, right associativity).

(** ** SQL statements of the tracker, as functions on the table *)

Definition on_day (n : str) (d : date) (r : Row) : bool :=
  Text.eqb (niche r) n && (generation_date r =? d).

Definition on_other_day (n : str) (d : date) (r : Row) : bool :=
  Text.eqb (niche r) n && negb (generation_date r =? d).

(** The rows selected by [WHERE niche = ? AND generation_date = ?], in rowid
    order. *)
Definition entries_on (n : str) (d : date) (db : database) : list Row :=
  filter (on_day n d) (ideas_log db).

(** [SELECT id, continuation_day FROM ideas_log
     WHERE niche = ? AND generation_date = ?] *)
Definition select_today (n : str) (d : date) (db : database) : list (Z * Z) :=
  map (fun r => (id r, continuation_day r)) (entries_on n d db).

(** [DELETE FROM ideas_log WHERE niche = ? AND generation_date = ?] *)
Definition delete_today (n : str) (d : date) (db : database) : database :=
  mkDb (filter (fun r => negb (on_day n d r)) (ideas_log db)) (sqlite_sequence db).

(** The aggregate [MAX] of SQL: [NULL] over no rows. *)
Definition sql_max (l : list Z) : option Z :=
  match l with
  | [] => None
  | x :: l' => Some (fold_left Z.max l' x)
  end.

(** AUTOINCREMENT: one more than the largest rowid ever used. *)
Definition next_rowid (db : database) : Z :=
  fold_left Z.max (map id (ideas_log db)) (sqlite_sequence db) + 1.

(** [INSERT INTO ideas_log (title, niche, continuation_day, created_at,
     generation_date) VALUES (?, ?, ?, ?, ?)] under the CHECK constraints of
    [setup_database]. *)
Definition insert_idea (t n : str) (day : Z) (at_ : timestamp) (d : date)
    (db : database) : outcome unit * database :=
  if check_continuation_day day && check_niche n then
    let i := next_rowid db in
    (Returns tt, mkDb (ideas_log db ++ [mkRow i t n day at_ d]) i)
  else (Raises IntegrityError, db).

(** [SELECT MAX(continuation_day) FROM ideas_log
     WHERE niche = ? AND generation_date != ?] *)
Definition select_max_other_days (n : str) (d : date) (db : database) : option Z :=
  sql_max (map continuation_day (filter (on_other_day n d) (ideas_log db))).

(** [SELECT continuation_day FROM ideas_log
     WHERE niche = ? AND generation_date = ? LIMIT 1]: the first match in
    rowid order. *)
Definition select_today_limit1 (n : str) (d : date) (db : database) : option Z :=
  match entries_on n d db with
  | r :: _ => Some (continuation_day r)
  | [] => None
  end.

(** [SELECT COUNT( * ) FROM ideas_log WHERE LOWER(title) = LOWER(?)] *)
Definition count_title (t : str) (db : database) : Z :=
  Z.of_nat (List.length (filter (fun r => Text.eqb (LOWER (title r)) (LOWER t))
                                (ideas_log db))).

Section Tracker.

Variable e : env.

(** One call into the storage layer: it raises when the world says so,
    and otherwise runs the statement on the open transaction. *)
Definition execute {A} (stmt : database -> outcome A * database) : Sql A :=
  fun c =>
    if faults e (calls c) then
      (Raises OperationalError, mkConn (committed c) (working c) (S (calls c)))
    else
      let (r, w) := stmt (working c) in
      (r, mkConn (committed c) w (S (calls c))).

Definition query {A} (q : database -> A) : Sql A :=
  execute (fun db => (Returns (q db), db)).

Definition update (u : database -> database) : Sql unit :=
  execute (fun db => (Returns tt, u db)).

(** The parameters of a statement are bound before it runs: a text that
    cannot be encoded raises [UnicodeEncodeError] and the statement is not
    run. *)
Definition binding {A} (texts : list str)
    (stmt : database -> outcome A * database)
    : database -> outcome A * database :=
  fun db =>
    if forallb bindable texts then stmt db else (Raises UnicodeEncodeError, db).

Definition query_with {A} (texts : list str) (q : database -> A) : Sql A :=
  execute (binding texts (fun db => (Returns (q db), db))).

Definition update_with (texts : list str) (u : database -> database)
    : Sql unit :=
  execute (binding texts (fun db => (Returns tt, u db))).

(** [conn.commit()] *)
Definition commit : Sql unit :=
  fun c =>
    if faults e (calls c) then
      (Raises OperationalError, mkConn (committed c) (working c) (S (calls c)))
    else (Returns tt, mkConn (working c) (working c) (S (calls c))).

(** [with sqlite3.connect(DB_PATH) as conn: body]: leaving the block
    normally commits, leaving it by an exception rolls back. *)
Definition with_connect {A} (body : Sql A) (db : database)
    : outcome A * database :=
  if faults e 0%nat then (Raises OperationalError, db)
  else
    match body (mkConn db db 1) with
    | (Returns a, c) => (Returns a, working c)
    | (Raises x, c) => (Raises x, committed c)
    end.

(** [log_idea(title, niche, continuation_day)] *)
Definition log_idea (title_ niche_ : str) (day : Z) (db : database)
    : outcome bool * database :=
  if missing title_ then (Raises (ValueError "Title cannot be empty"), db)
  else if missing niche_ then (Raises (ValueError "Niche cannot be empty"), db)
  else if day <? 1 then
    (Raises (ValueError "Continuation day must be a positive integer"), db)
  else
    let body :=
      existing_today <- query_with [strip niche_]
                          (select_today (strip niche_) (today e)) ;;
      (match existing_today with
       | _ :: _ => update_with [strip niche_]
                     (delete_today (strip niche_) (today e))
       | [] => ret tt
       end) ;;;
      execute (binding [strip title_; strip niche_]
                 (fun db =>
                    if fits_int64 day
                    then insert_idea (strip title_) (strip niche_) day
                                     (now e) (today e) db
                    else (Raises OverflowError, db))) ;;;
      commit ;;;
      ret true
    in
    match with_connect body db with
    | (Returns b, db') => (Returns b, db')
    | (Raises _, db') => (Returns false, db')
    end.

(** [get_current_day(niche)] *)
Definition get_current_day (niche_ : str) (db : database)
    : outcome Z * database :=
  if missing niche_ then (Raises (ValueError "Niche cannot be empty"), db)
  else
    with_connect
      (result <- query_with [strip niche_]
                   (select_max_other_days (strip niche_) (today e)) ;;
       let max_day := match result with Some m => m | None => 0 end in
       today_result <- query_with [strip niche_]
                         (select_today_limit1 (strip niche_) (today e)) ;;
       match today_result with
       | Some d => ret (d - 1)
       | None => ret max_day
       end)
      db.

(** [check_for_duplication(title)] *)
Definition check_for_duplication (title_ : str) (db : database)
    : outcome bool * database :=
  if missing title_ then (Raises (ValueError "Title cannot be empty"), db)
  else
    with_connect
      (result <- query_with [strip title_] (count_title (strip title_)) ;;
       ret (0 <? result))
      db.

End Tracker.

(** ** Notions the properties are stated with *)

(** The store a [log_idea] that goes through leaves behind: today's rows of
    the niche are gone and one new row stands at the end of the table. *)
Definition overwrite (e : env) (t C : str) (d : Z) (db : database) : database :=
  let db1 := delete_today (strip C) (today e) db in
  let i := next_rowid db1 in
  mkDb (ideas_log db1 ++ [mkRow i (strip t) (strip C) d (now e) (today e)]) i.

(** [m] is the largest [continuation_day] among the rows of niche [C] not
    dated [d], and 0 when there is no such row. *)
Definition historical_max (C : str) (d : date) (db : database) (m : Z) : Prop :=
  (forall r, In r (ideas_log db) -> niche r = C -> generation_date r <> d ->
             continuation_day r <= m)
  /\ ((exists r, In r (ideas_log db) /\ niche r = C /\ generation_date r <> d
                 /\ continuation_day r = m)
      \/ (m = 0 /\ forall r, In r (ideas_log db) -> niche r = C ->
                             generation_date r = d)).

(** Two titles that differ at most in the case of their ASCII letters. *)
Definition same_title (a b : str) : Prop := LOWER a = LOWER b.

(** The same code point, or the capital and the small form of one of the
    letters A to Z. *)
Definition same_letter (a b : N) : Prop :=
  a = b
  \/ ((65 <= a <= 90)%N /\ b = (a + 32)%N)
  \/ ((65 <= b <= 90)%N /\ a = (b + 32)%N).

(** Texts of the same length that agree, position by position, up to the
    case of the letters A to Z. *)
Definition equal_ignoring_case (s t : str) : Prop := Forall2 same_letter s t.

(** Within a niche, a row of a later calendar day carries a larger day
    number than every row of an earlier calendar day. *)
Definition cross_day_increasing (db : database) : Prop :=
  forall r1 r2, In r1 (ideas_log db) -> In r2 (ideas_log db) ->
    niche r1 = niche r2 -> generation_date r1 < generation_date r2 ->
    continuation_day r1 < continuation_day r2.

(** No row is dated after [d]. *)
Definition none_after (d : date) (db : database) : Prop :=
  forall r, In r (ideas_log db) -> generation_date r <= d.

(** Some storage call among the first [n] of an operation fails. *)
Definition fault_within (e : env) (n : nat) : Prop :=
  exists k, (k < n)%nat /\ faults e k = true.

(** Storage calls of [log_idea]: connect, SELECT, DELETE when today has
    rows, INSERT, commit. *)
Definition log_idea_calls (e : env) (C : str) (db : database) : nat :=
  match entries_on (strip C) (today e) db with
  | [] => 4%nat
  | _ :: _ => 5%nat
  end.

(** ** Concrete worlds and stores used by the examples *)

Definition quiet (d : date) : env := mkEnv d 0 (fun _ => false).

Definition failing_at (k : nat) (d : date) : env := mkEnv d 0 (Nat.eqb k).

(** The store after the orchestrator's batch of three MMO ideas on day 100. *)
Definition batch_of_three : database :=
  let e := quiet 100 in
  let db1 := snd (log_idea e (lit "Idea1") (lit "MMO") 1 empty_db) in
  let db2 := snd (log_idea e (lit "Idea2") (lit "MMO") 2 db1) in
  snd (log_idea e (lit "Idea3") (lit "MMO") 3 db2).

(** The text ["\ud800"]: one code point, a surrogate on its own. *)
Definition lone_surrogate : str := [55296%N].

(** One row whose title is the capital E with acute accent, U+00C9. *)
Definition e_acute_store : database :=
  mkDb [mkRow 1 [201%N] (lit "MMO") 1 0 100] 1.

(** One MMO row of day 5, written on calendar day 99. *)
Definition day5_yesterday : database :=
  mkDb [mkRow 1 (lit "A") (lit "MMO") 5 0 99] 1.

(** The store [day5_yesterday] after [log_idea("B", "MMO", 1)] on day 100. *)
Definition day5_then_day1 : database :=
  mkDb [mkRow 1 (lit "A") (lit "MMO") 5 0 99;
        mkRow 2 (lit "B") (lit "MMO") 1 0 100] 2.

(** The store after [log_idea("Hello World", "MMO", 1)] on day 100. *)
Definition hello_world : database :=
  mkDb [mkRow 1 (lit "Hello World") (lit "MMO") 1 0 100] 1.

(** Rows of two niches and two calendar days. *)
Definition mixed_store : database :=
  mkDb [mkRow 1 (lit "A") (lit "MMO") 5 0 99;
        mkRow 2 (lit "B") (lit "Faceless") 2 0 100;
        mkRow 3 (lit "C") (lit "MMO") 6 0 100] 3.

(** * The rest of the database manager and its caller

    [get_all_ideas] and [get_database_stats] of [db_manager.py], and the part
    of [generate_content_ideas] ([content_generator.py]) that reads the days
    and logs a batch of generated ideas. *)

(** ** SQL: ORDER BY, LIMIT, GROUP BY *)

Fixpoint insert_by {A} (le : A -> A -> bool) (x : A) (l : list A) : list A :=
  match l with
  | [] => [x]
  | y :: l' => if le x y then x :: l else y :: insert_by le x l'
  end.

(** [ORDER BY]: the rows sorted by [le]; rows that tie stay in the order
    they had (SQL leaves their order open). *)
Definition order_by {A} (le : A -> A -> bool) (l : list A) : list A :=
  fold_right (insert_by le) [] l.

(** [ORDER BY continuation_day DESC, created_at DESC].  SQLite compares
    [created_at] as text; a [timestamp] of the model stands for the rank of
    the stored text in that order, which for the ISO timestamps [log_idea]
    writes is the order of the instants. *)
Definition day_desc_created_desc (a b : Row) : bool :=
  (continuation_day b <? continuation_day a)
  || ((continuation_day a =? continuation_day b)
      && (created_at b <=? created_at a)).

(** [ORDER BY created_at DESC] *)
Definition created_desc (a b : Row) : bool := created_at b <=? created_at a.

(** [LIMIT n]: a negative [n] means no limit. *)
Definition sql_limit {A} (n : Z) (l : list A) : list A :=
  if n <? 0 then l else firstn (Z.to_nat n) l.

(** One more row of niche [n] and day [d] in the groups of [GROUP BY niche]:
    each group holds [COUNT( * )] and [MAX(continuation_day)]. *)
Fixpoint tally (n : str) (d : Z) (g : list (str * Z * Z)) : list (str * Z * Z) :=
  match g with
  | [] => [(n, 1, d)]
  | (m, c, x) :: g' =>
      if Text.eqb m n then (m, c + 1, Z.max x d) :: g'
      else (m, c, x) :: tally n d g'
  end.

(** [SELECT niche, COUNT( * ), MAX(continuation_day) FROM ideas_log
     GROUP BY niche] *)
Definition group_by_niche (rows : list Row) : list (str * Z * Z) :=
  fold_left (fun g r => tally (niche r) (continuation_day r) g) rows [].

(** The columns of a group: [niche], [count], [max_day]. *)
Definition group_niche (g : str * Z * Z) : str := fst (fst g).
Definition group_count (g : str * Z * Z) : Z := snd (fst g).
Definition group_max_day (g : str * Z * Z) : Z := snd g.

(** [ORDER BY count DESC] *)
Definition count_desc (a b : str * Z * Z) : bool :=
  group_count b <=? group_count a.

(** The aggregate [MIN] of SQL. *)
Definition sql_min (l : list Z) : option Z :=
  match l with
  | [] => None
  | x :: l' => Some (fold_left Z.min l' x)
  end.

(** ** [get_all_ideas] *)

(** A result row [(id, title, niche, continuation_day, created_at)]. *)
Definition idea_tuple : Type := (Z * str * str * Z * timestamp)%type.

Definition as_tuple (r : Row) : idea_tuple :=
  (id r, title r, niche r, continuation_day r, created_at r).

(** The rows of [WHERE niche = ?]. *)
Definition of_niche (n : str) (db : database) : list Row :=
  filter (fun r => Text.eqb (niche r) n) (ideas_log db).

(** The query [get_all_ideas] builds: [if niche:] chooses between the two
    SELECT statements, [if limit:] appends [LIMIT {limit}] to the text; a
    limit that is no 64-bit integer makes SQLite refuse the statement. *)
Definition select_ideas (niche_ : option str) (limit : option Z)
    (db : database) : outcome (list idea_tuple) * database :=
  let rows :=
    match niche_ with
    | Some (c :: n) =>
        order_by day_desc_created_desc (of_niche (strip (c :: n)) db)
    | _ => order_by created_desc (ideas_log db)
    end in
  match limit with
  | None | Some 0 => (Returns (map as_tuple rows), db)
  | Some n =>
      if fits_int64 n then (Returns (map as_tuple (sql_limit n rows)), db)
      else (Raises IntegrityError, db)
  end.

(** [get_all_ideas(niche, limit)]: both [except] clauses return [[]].
    A niche that cannot be bound ends in the second clause; SQLite holds
    text as UTF-8, so no stored row carries such a niche, and [[]] is also
    what the selection gives for it. *)
Definition get_all_ideas (e : env) (niche_ : option str) (limit : option Z)
    (db : database) : outcome (list idea_tuple) * database :=
  match with_connect e (execute e (select_ideas niche_ limit)) db with
  | (Returns results, db') => (Returns results, db')
  | (Raises _, db') => (Returns [], db')
  end.

(** ** [get_database_stats] *)

Record Stats : Type := mkStats {
  total_ideas : Z;
  niche_breakdown : list (str * Z * Z);
  first_idea_date : option timestamp;
  latest_idea_date : option timestamp
}.

(** The dictionary returned: [{}] or the four statistics. *)
Inductive stats_dict : Type :=
| EmptyDict
| StatsDict (s : Stats).

(** [get_database_stats()]: three queries; [sqlite3.Error] gives [{}]. *)
Definition get_database_stats (e : env) (db : database)
    : outcome stats_dict * database :=
  match
    with_connect e
      (total <- query e (fun db => Z.of_nat (List.length (ideas_log db))) ;;
       niche_stats <- query e (fun db => order_by count_desc
                                           (group_by_niche (ideas_log db))) ;;
       date_range <- query e (fun db =>
                                (sql_min (map created_at (ideas_log db)),
                                 sql_max (map created_at (ideas_log db)))) ;;
       ret (StatsDict (mkStats total niche_stats
                                (fst date_range) (snd date_range))))
      db
  with
  | (Returns d, db') => (Returns d, db')
  | (Raises OperationalError, db') | (Raises IntegrityError, db') =>
      (Returns EmptyDict, db')
  | (Raises x, db') => (Raises x, db')
  end.

(** ** The caller: reading the days and logging a batch *)

(** [p] is a prefix of [s]. *)
Fixpoint starts_with (p s : str) : bool :=
  match p, s with
  | [], _ => true
  | x :: p', y :: s' => N.eqb x y && starts_with p' s'
  | _ :: _, [] => false
  end.

(** Python's [needle in hay] on [str]. *)
Fixpoint contains (needle hay : str) : bool :=
  starts_with needle hay
  || match hay with
     | [] => false
     | _ :: hay' => contains needle hay'
     end.

(** [niche_mapping] of [create_enhanced_user_prompt]: the display name sent
    to the model for each database niche. *)
Definition niche_mapping : list (str * str) :=
  [(lit "MMO", lit "Make Money Online / Personal Finance");
   (lit "AI/Tech", lit "AI/Tech Tutorials");
   (lit "Faceless", lit "Faceless Theme Page")].

(** "Map display niche back to database niche". *)
Definition db_niche_of (niche_display : str) : option str :=
  if contains (lit "Personal Finance") niche_display
     || contains (lit "Money") niche_display
  then Some (lit "MMO")
  else if contains (lit "AI") niche_display
          || contains (lit "Tech") niche_display
  then Some (lit "AI/Tech")
  else if contains (lit "Faceless") niche_display
  then Some (lit "Faceless")
  else None.

(** A dictionary with the three niches as keys. *)
Definition day_dict (mmo tech faceless : Z) : str -> Z :=
  fun n =>
    if Text.eqb n (lit "MMO") then mmo
    else if Text.eqb n (lit "AI/Tech") then tech
    else if Text.eqb n (lit "Faceless") then faceless
    else 0.

(** [session_counters[db_niche] += 1] *)
Definition bump (counters : str -> Z) (n : str) : str -> Z :=
  fun m => if Text.eqb m n then counters m + 1 else counters m.

(** The world of a run: the environment of its [k]-th tracker call. *)
Definition world : Type := nat -> env.

(** "Get current continuation days for each niche": three reads inside one
    [try]; if one of them raises, every niche restarts from 0.  Returns the
    dictionary and the number of tracker calls made. *)
Definition read_niche_data (w : world) (db : database) : (str -> Z) * nat :=
  match get_current_day (w 0%nat) (lit "MMO") db with
  | (Raises _, _) => (day_dict 0 0 0, 1%nat)
  | (Returns mmo, _) =>
      match get_current_day (w 1%nat) (lit "AI/Tech") db with
      | (Raises _, _) => (day_dict 0 0 0, 2%nat)
      | (Returns tech, _) =>
          match get_current_day (w 2%nat) (lit "Faceless") db with
          | (Raises _, _) => (day_dict 0 0 0, 3%nat)
          | (Returns faceless, _) => (day_dict mmo tech faceless, 3%nat)
          end
      end
  end.

(** A generated idea: [idea.get('title', '')] and [idea.get('niche', '')]
    (a missing key reads as the empty text). *)
Record Idea : Type := mkIdea {
  idea_title : str;
  idea_niche : str
}.

(** The variables of the logging loop. *)
Record run : Type := mkRun {
  store : database;
  session_counters : str -> Z;
  logged_ideas : list (str * Z);   (* "{db_niche} Day {next_day}" *)
  duplicate_count : Z;
  db_errors : Z;
  tick : nat                       (* tracker calls made so far *)
}.

(** The body of [for i, idea in enumerate(content_ideas, 1)]. *)
Definition log_one (w : world) (s : run) (i : Idea) : run :=
  if missing (idea_title i) then s
  else
    match db_niche_of (idea_niche i) with
    | None => s
    | Some db_niche =>
        match check_for_duplication (w (tick s)) (idea_title i) (store s) with
        | (Raises _, db) =>
            mkRun db (session_counters s) (logged_ideas s)
                  (duplicate_count s) (db_errors s + 1) (S (tick s))
        | (Returns true, db) =>
            mkRun db (session_counters s) (logged_ideas s)
                  (duplicate_count s + 1) (db_errors s) (S (tick s))
        | (Returns false, db) =>
            let counters := bump (session_counters s) db_niche in
            let next_day := counters db_niche in
            match log_idea (w (S (tick s))) (idea_title i) db_niche next_day db
            with
            | (Returns true, db') =>
                mkRun db' counters (logged_ideas s ++ [(db_niche, next_day)])
                      (duplicate_count s) (db_errors s) (S (S (tick s)))
            | (_, db') =>
                mkRun db' counters (logged_ideas s)
                      (duplicate_count s) (db_errors s + 1) (S (S (tick s)))
            end
        end
    end.

(** The loop over [content_ideas]. *)
Definition log_batch (w : world) (ideas : list Idea) (s : run) : run :=
  fold_left (log_one w) ideas s.

(** The run from the reads to the end of the loop, as it goes when the
    database module is available: the counters start from the days read. *)
Definition track_generation (w : world) (ideas : list Idea) (db : database)
    : run :=
  let (niche_data, calls) := read_niche_data w db in
  log_batch w ideas (mkRun db niche_data [] 0 0 calls).

(** A world with one calendar day and a storage layer that answers. *)
Definition calm (d : date) : world := fun _ => quiet d.

(** What the orderings of [get_all_ideas] put first. *)
Definition newer_day_first (a b : Row) : Prop :=
  continuation_day b < continuation_day a
  \/ (continuation_day a = continuation_day b /\ created_at b <= created_at a).

Definition newest_first (a b : Row) : Prop := created_at b <= created_at a.

(** No [LIMIT] clause takes effect: none is given, or 0, or a negative one. *)
Definition unlimited (limit : option Z) : Prop :=
  limit = None \/ exists n, limit = Some n /\ - 2 ^ 63 <= n <= 0.

(** The day number in a result row of [get_all_ideas]. *)
Definition tuple_day (t : idea_tuple) : Z := snd (fst t).

(** How many of the logged ideas are of niche [C]. *)
Definition logged_for (C : str) (l : list (str * Z)) : Z :=
  Z.of_nat (List.length (filter (fun p => Text.eqb (fst p) C) l)).

(** Later entries of a niche carry larger day numbers. *)
Definition days_increase (a b : str * Z) : Prop := fst a = fst b -> snd a < snd b.

(** The rows not dated [d]. *)
Definition other_days (d : date) (db : database) : list Row :=
  filter (fun r => negb (generation_date r =? d)) (ideas_log db).

(** The sum of the [count] column. *)
Definition sum_counts (g : list (str * Z * Z)) : Z :=
  fold_right Z.add 0 (map group_count g).

(** The group of niche [n], if there is one. *)
Fixpoint group_of (n : str) (g : list (str * Z * Z)) : option (Z * Z) :=
  match g with
  | [] => None
  | (m, c, x) :: g' => if Text.eqb m n then Some (c, x) else group_of n g'
  end.

(** The groups after the rows [seen]. *)
Definition tallied (seen : list Row) (g : list (str * Z * Z)) : Prop :=
  NoDup (map group_niche g)
  /\ sum_counts g = Z.of_nat (List.length seen)
  /\ forall n,
       group_of n g =
       match sql_max (map continuation_day
                        (filter (fun r => Text.eqb (niche r) n) seen)) with
       | Some m =>
           Some (Z.of_nat (List.length
                             (filter (fun r => Text.eqb (niche r) n) seen)), m)
       | None => None
       end.

(** An idea the loop takes up (a title, a niche it can map) whose title has
    no UTF-8 encoding: the duplicate check raises when it binds the
    title. *)
Definition rejected_at_bind (i : Idea) : bool :=
  negb (missing (idea_title i))
  && match db_niche_of (idea_niche i) with Some _ => true | None => false end
  && negb (bindable (strip (idea_title i))).

(** What a run on day [d] with an answering storage has done between two
    points of the loop: for each niche the counter grew by the number of
    ideas logged for it; and either nothing of the niche was logged, and
    its rows of day [d] are as they were, or its single row of day [d]
    carries the counter's value. *)
Definition batch_progress (d : date) (s s' : run) : Prop :=
  forall C, check_niche C = true ->
       session_counters s' C
       = session_counters s C
         + (logged_for C (logged_ideas s') - logged_for C (logged_ideas s))
       /\ ((session_counters s' C = session_counters s C
            /\ entries_on C d (store s') = entries_on C d (store s))
           \/ (session_counters s C < session_counters s' C
               /\ exists r, entries_on C d (store s') = [r]
                            /\ continuation_day r = session_counters s' C)).

(** The entries of the log are for the three niches, with day numbers
    above [seed] and up to the counters, increasing within a niche. *)
Definition log_in_order (seed : str -> Z) (s : run) : Prop :=
  StronglySorted days_increase (logged_ideas s)
  /\ (forall n day, In (n, day) (logged_ideas s) ->
        check_niche n = true /\ seed n < day <= session_counters s n)
  /\ forall n, seed n <= session_counters s n.

(** Every row satisfies the CHECK constraints of the table. *)
Definition satisfies_checks (db : database) : Prop :=
  forall r, In r (ideas_log db) ->
    0 < continuation_day r /\ check_niche (niche r) = true.

(** No row has an id beyond the AUTOINCREMENT counter, and no two rows
    share an id. *)
Definition ids_in_sequence (db : database) : Prop :=
  (forall r, In r (ideas_log db) -> id r <= sqlite_sequence db)
  /\ NoDup (map id (ideas_log db)).

(** A world whose first read fails and whose storage answers afterwards. *)
Definition first_read_fails (d : date) : world :=
  fun k => match k with O => failing_at 0 d | S _ => quiet d end.

(** * Properties *)

(** ** Text *)

Lemma eqb_eq (a b : str) : Text.eqb a b = true <-> a = b.
Proof.
  revert b; induction a as [|x a IH]; intros [|y b]; simpl;
    try (split; [discriminate | discriminate]); [tauto|].
  rewrite andb_true_iff, N.eqb_eq, IH.
  split; [intros [-> ->]; reflexivity | intros H; injection H; auto].
Qed.

Lemma eqb_refl (a : str) : Text.eqb a a = true.
Proof. apply eqb_eq; reflexivity. Qed.

Lemma missing_empty : missing [] = true.
Proof. reflexivity. Qed.

Lemma lstrip_fixed c s : isspace c = false -> lstrip (c :: s) = c :: s.
Proof. intros H; simpl; rewrite H; reflexivity. Qed.

(** A text that neither starts nor ends with whitespace is left as it is. *)
Lemma strip_trimmed (s : str) :
  (forall c s', s = c :: s' -> isspace c = false) ->
  (forall c s', rev s = c :: s' -> isspace c = false) ->
  strip s = s.
Proof.
  intros Hfirst Hlast; unfold strip, rstrip.
  destruct s as [|c s']; [reflexivity|].
  rewrite (lstrip_fixed c s' (Hfirst c s' eq_refl)).
  destruct (rev (c :: s')) as [|c' r] eqn:E.
  - apply (f_equal (@List.length N)) in E.
    rewrite length_rev in E; discriminate.
  - rewrite (lstrip_fixed c' r (Hlast c' r eq_refl)), <- E.
    apply rev_involutive.
Qed.

(** [LOWER] identifies exactly the capital and the small form of the
    letters A to Z. *)
Lemma lower_char_same_letter a b :
  lower_char a = lower_char b <-> same_letter a b.
Proof.
  unfold lower_char, same_letter.
  destruct (65 <=? a)%N eqn:A1, (a <=? 90)%N eqn:A2,
           (65 <=? b)%N eqn:B1, (b <=? 90)%N eqn:B2; simpl;
    rewrite ?N.leb_le, ?N.leb_gt in *; lia.
Qed.

Lemma same_title_letters a b : same_title a b <-> equal_ignoring_case a b.
Proof.
  unfold same_title, equal_ignoring_case, LOWER.
  revert b; induction a as [|x a IH]; intros [|y b]; simpl.
  - split; [constructor | reflexivity].
  - split; [discriminate | intros H; inversion H].
  - split; [discriminate | intros H; inversion H].
  - split.
    + intros H; injection H as Hx Hrest.
      constructor; [apply lower_char_same_letter, Hx | apply IH, Hrest].
    + intros H; inversion H as [|? ? ? ? Hx Hrest]; subst.
      f_equal; [apply lower_char_same_letter, Hx | apply IH, Hrest].
Qed.

Lemma surrogate_lower_char c : surrogate (lower_char c) = surrogate c.
Proof.
  unfold surrogate, lower_char.
  destruct (65 <=? c)%N eqn:A1, (c <=? 90)%N eqn:A2; simpl; try reflexivity.
  apply N.leb_le in A1, A2.
  replace (c <=? 57343)%N with true by (symmetry; apply N.leb_le; lia).
  replace (55296 <=? c)%N with false by (symmetry; apply N.leb_gt; lia).
  replace (55296 <=? c + 32)%N with false by (symmetry; apply N.leb_gt; lia).
  reflexivity.
Qed.

Lemma bindable_LOWER s : bindable (LOWER s) = bindable s.
Proof.
  unfold bindable, LOWER; induction s as [|c s IH]; simpl; [reflexivity|].
  rewrite surrogate_lower_char, IH; reflexivity.
Qed.

(** Titles that are the same up to case can be bound alike. *)
Lemma same_title_bindable a b : same_title a b -> bindable a = bindable b.
Proof.
  unfold same_title; intros H.
  rewrite <- (bindable_LOWER a), <- (bindable_LOWER b), H; reflexivity.
Qed.

(** ** Selections *)

Lemma on_day_true n d r :
  on_day n d r = true <-> niche r = n /\ generation_date r = d.
Proof.
  unfold on_day; rewrite andb_true_iff, eqb_eq, Z.eqb_eq; tauto.
Qed.

Lemma on_day_false n d r :
  on_day n d r = false <-> niche r <> n \/ generation_date r <> d.
Proof.
  rewrite <- not_true_iff_false, on_day_true.
  destruct (Z.eq_dec (generation_date r) d); [|tauto].
  destruct (list_eq_dec N.eq_dec (niche r) n); tauto.
Qed.

Lemma on_other_day_true n d r :
  on_other_day n d r = true <-> niche r = n /\ generation_date r <> d.
Proof.
  unfold on_other_day.
  rewrite andb_true_iff, eqb_eq, negb_true_iff, Z.eqb_neq; tauto.
Qed.

Lemma entries_on_In n d db r :
  In r (entries_on n d db) <->
  In r (ideas_log db) /\ niche r = n /\ generation_date r = d.
Proof. unfold entries_on; rewrite filter_In, on_day_true; tauto. Qed.

Lemma filter_all {A} (f : A -> bool) (l : list A) :
  filter f l = [] -> filter (fun x => negb (f x)) l = l.
Proof.
  induction l as [|x l IH]; simpl; [reflexivity|].
  destruct (f x); simpl; [discriminate|].
  intros H; rewrite IH; auto.
Qed.

Lemma delete_today_nothing n d db :
  entries_on n d db = [] -> delete_today n d db = db.
Proof.
  unfold entries_on, delete_today; intros H.
  rewrite (filter_all _ _ H); destruct db; reflexivity.
Qed.

Lemma entries_on_delete n d db : entries_on n d (delete_today n d db) = [].
Proof.
  unfold entries_on, delete_today; simpl.
  induction (ideas_log db) as [|r l IH]; simpl; [reflexivity|].
  destruct (on_day n d r) eqn:E; simpl; [assumption|].
  rewrite E; assumption.
Qed.

Lemma fold_max_ge (l : list Z) (a : Z) :
  a <= fold_left Z.max l a /\ forall x, In x l -> x <= fold_left Z.max l a.
Proof.
  revert a; induction l as [|y l IH]; intros a; simpl.
  - split; [lia | tauto].
  - destruct (IH (Z.max a y)) as [H1 H2]; split; [lia|].
    intros x [->|Hx]; [lia | auto].
Qed.

Lemma fold_max_In (l : list Z) (a : Z) :
  fold_left Z.max l a = a \/ In (fold_left Z.max l a) l.
Proof.
  revert a; induction l as [|y l IH]; intros a; simpl; [auto|].
  destruct (IH (Z.max a y)) as [H|H]; [|auto].
  rewrite H; destruct (Z.max_spec a y) as [[_ ->]|[_ ->]]; auto.
Qed.

Lemma sql_max_Some l m :
  sql_max l = Some m -> In m l /\ forall x, In x l -> x <= m.
Proof.
  destruct l as [|a l]; simpl; [discriminate|].
  intros H; injection H as <-.
  destruct (fold_max_ge l a) as [H1 H2].
  split.
  - destruct (fold_max_In l a) as [->|H]; auto.
  - intros x [<-|Hx]; auto.
Qed.

Lemma sql_max_None l : sql_max l = None -> l = [].
Proof. destruct l; [reflexivity | discriminate]. Qed.

(** ** Running the operations *)

Ltac run_sql :=
  unfold with_connect, bind, query_with, update_with, query, update, execute,
    binding, commit, ret, raise, insert_idea; simpl.

Ltac split_faults :=
  repeat match goal with
         | |- context [faults ?e ?k] => destruct (faults e k) eqn:?; simpl
         end.

Lemma select_today_nil n d db :
  select_today n d db = [] <-> entries_on n d db = [].
Proof.
  unfold select_today; destruct (entries_on n d db); simpl; split;
    congruence.
Qed.

(** The three niches of the table can be bound. *)
Lemma check_niche_bindable n : check_niche n = true -> bindable n = true.
Proof.
  unfold check_niche, NICHES; simpl.
  rewrite !orb_true_iff, !eqb_eq.
  intros [->|[->|[->|H]]]; [| | |discriminate]; reflexivity.
Qed.

(** The three ways a call of [log_idea] ends. *)
Lemma log_idea_cases e t C d db :
  (exists msg, log_idea e t C d db = (Raises (ValueError msg), db)
               /\ (missing t = true \/ missing C = true \/ d < 1))
  \/ (missing t = false /\ missing C = false /\ 1 <= d
      /\ (log_idea e t C d db = (Returns false, db)
          \/ (log_idea e t C d db = (Returns true, overwrite e t C d db)
              /\ check_niche (strip C) = true
              /\ (forall k, (k < log_idea_calls e C db)%nat ->
                            faults e k = false)
              /\ bindable (strip t) = true))).
Proof.
  unfold log_idea, overwrite, log_idea_calls.
  destruct (missing t); [left; eexists; split; [reflexivity | auto]|].
  destruct (missing C); [left; eexists; split; [reflexivity | auto]|].
  destruct (d <? 1) eqn:Hd.
  { apply Z.ltb_lt in Hd; left; eexists; split; [reflexivity | auto]. }
  apply Z.ltb_ge in Hd; right; repeat split; auto.
  unfold select_today.
  destruct (bindable (strip C)) eqn:HbC;
    [|run_sql; rewrite HbC; simpl; split_faults; auto].
  destruct (bindable (strip t)) eqn:Hbt.
  - destruct (entries_on (strip C) (today e) db) as [|r l] eqn:Hsel.
    + rewrite (delete_today_nothing _ _ _ Hsel).
      run_sql; rewrite HbC, Hbt, Hsel; simpl.
      destruct (fits_int64 d); simpl; split_faults; auto.
      destruct (check_continuation_day d && check_niche (strip C)) eqn:Hck;
        simpl; split_faults; auto.
      apply andb_true_iff in Hck; right; repeat split; try tauto.
      intros k Hk.
      destruct k as [|[|[|[|k]]]]; auto; lia.
    + run_sql; rewrite HbC, Hbt, Hsel; simpl.
      destruct (fits_int64 d); simpl; split_faults; auto.
      destruct (check_continuation_day d && check_niche (strip C)) eqn:Hck;
        simpl; split_faults; auto.
      apply andb_true_iff in Hck; right; repeat split; try tauto.
      intros k Hk.
      destruct k as [|[|[|[|[|k]]]]]; auto; lia.
  - left.
    destruct (entries_on (strip C) (today e) db) as [|r l] eqn:Hsel;
      run_sql; rewrite HbC, Hbt, Hsel; simpl; split_faults; reflexivity.
Qed.

Lemma log_idea_true e t C d db db' :
  log_idea e t C d db = (Returns true, db') ->
  missing t = false /\ missing C = false /\ 1 <= d
  /\ check_niche (strip C) = true /\ db' = overwrite e t C d db.
Proof.
  intros H.
  destruct (log_idea_cases e t C d db)
    as [(msg & E & _)|(Ht & HC & Hd & [E|(E & Hn & _)])];
    rewrite E in H; try discriminate.
  injection H as <-; auto.
Qed.

(** A title that was written could be bound. *)
Lemma log_idea_true_bindable e t C d db db' :
  log_idea e t C d db = (Returns true, db') ->
  bindable (strip t) = true /\ bindable (strip C) = true.
Proof.
  intros H.
  destruct (log_idea_cases e t C d db)
    as [(msg & E & _)|(_ & _ & _ & [E|(E & Hn & _ & Hb)])];
    rewrite E in H; try discriminate.
  split; [exact Hb | exact (check_niche_bindable _ Hn)].
Qed.

(** What the store holds after a [log_idea]. *)
Lemma log_idea_store e t C d db :
  snd (log_idea e t C d db) = db
  \/ log_idea e t C d db = (Returns true, overwrite e t C d db).
Proof.
  destruct (log_idea_cases e t C d db)
    as [(msg & E & _)|(_ & _ & _ & [E|(E & _)])]; rewrite E; auto.
Qed.

Lemma log_idea_succeeds e t C d db :
  storage_ok e -> missing t = false -> missing C = false -> 1 <= d ->
  fits_int64 d = true -> check_niche (strip C) = true ->
  bindable (strip t) = true ->
  log_idea e t C d db = (Returns true, overwrite e t C d db).
Proof.
  intros Hok Ht HC Hd Hfit Hn Hbt.
  pose proof (check_niche_bindable _ Hn) as HbC.
  unfold log_idea, overwrite; rewrite Ht, HC.
  destruct (d <? 1) eqn:E; [apply Z.ltb_lt in E; lia|].
  assert (Hck : check_continuation_day d = true)
    by (apply Z.ltb_lt; lia).
  unfold select_today.
  destruct (entries_on (strip C) (today e) db) as [|r l] eqn:Hsel.
  - rewrite (delete_today_nothing _ _ _ Hsel).
    run_sql; rewrite !Hok, HbC, Hbt; simpl; rewrite Hsel; simpl.
    rewrite ?Hok, Hfit, Hck, Hn; simpl.
    rewrite ?Hok; reflexivity.
  - run_sql; rewrite !Hok, HbC, Hbt; simpl; rewrite Hsel; simpl.
    rewrite ?Hok; simpl.
    rewrite ?Hok, Hfit, Hck, Hn; simpl.
    rewrite ?Hok; reflexivity.
Qed.

Lemma get_current_day_runs e C db :
  storage_ok e -> missing C = false -> bindable (strip C) = true ->
  get_current_day e C db =
  (Returns match select_today_limit1 (strip C) (today e) db with
           | Some d => d - 1
           | None => match select_max_other_days (strip C) (today e) db with
                     | Some m => m
                     | None => 0
                     end
           end, db).
Proof.
  intros Hok HC Hb; unfold get_current_day; rewrite HC.
  run_sql; rewrite !Hok, Hb; simpl; rewrite !Hok; simpl.
  destruct (select_today_limit1 (strip C) (today e) db); reflexivity.
Qed.

(** A day that [get_current_day] returned is the one computed from the
    rows, also when later operations of the environment would fail. *)
Lemma get_current_day_returned e C db g :
  get_current_day e C db = (Returns g, db) ->
  missing C = false /\ bindable (strip C) = true
  /\ g = match select_today_limit1 (strip C) (today e) db with
         | Some d => d - 1
         | None => match select_max_other_days (strip C) (today e) db with
                   | Some m => m
                   | None => 0
                   end
         end.
Proof.
  unfold get_current_day.
  destruct (missing C); [discriminate|].
  run_sql; destruct (bindable (strip C)); simpl; split_faults;
    try discriminate.
  destruct (select_today_limit1 (strip C) (today e) db);
    intros H; injection H as <-; auto.
Qed.

Lemma reported_day_not_negative e C db g :
  (forall r, In r (ideas_log db) -> 1 <= continuation_day r) ->
  get_current_day e C db = (Returns g, db) -> 0 <= g.
Proof.
  intros Hrows H; apply get_current_day_returned in H.
  destruct H as (_ & _ & ->).
  unfold select_today_limit1, select_max_other_days.
  destruct (entries_on (strip C) (today e) db) as [|r l] eqn:E.
  - destruct (sql_max _) as [m|] eqn:Em; [|lia].
    destruct (sql_max_Some _ _ Em) as [Hin _].
    apply in_map_iff in Hin; destruct Hin as (r & <- & Hr).
    apply filter_In in Hr; specialize (Hrows r (proj1 Hr)); lia.
  - assert (Hin : In r (entries_on (strip C) (today e) db))
      by (rewrite E; left; reflexivity).
    apply entries_on_In in Hin; specialize (Hrows r (proj1 Hin)); lia.
Qed.

(** The four ways a call of [get_current_day] ends. *)
Lemma get_current_day_cases e C db :
  (exists msg, get_current_day e C db = (Raises (ValueError msg), db)
               /\ missing C = true)
  \/ (missing C = false
      /\ ((get_current_day e C db = (Raises OperationalError, db)
           /\ (faults e 0%nat = true \/ faults e 1%nat = true
               \/ (bindable (strip C) = true /\ faults e 2%nat = true)))
          \/ (get_current_day e C db = (Raises UnicodeEncodeError, db)
              /\ bindable (strip C) = false
              /\ faults e 0%nat = false /\ faults e 1%nat = false)
          \/ ((exists v, get_current_day e C db = (Returns v, db))
              /\ bindable (strip C) = true
              /\ forall k, (k < 3)%nat -> faults e k = false))).
Proof.
  unfold get_current_day.
  destruct (missing C); [left; eexists; split; reflexivity|].
  right; split; [reflexivity|].
  run_sql; destruct (bindable (strip C)) eqn:Hb; simpl; split_faults;
    try (left; split; [reflexivity | tauto]);
    try (right; left; split; [reflexivity | tauto]).
  right; right; split; [|split; [reflexivity|]].
  - destruct (select_today_limit1 (strip C) (today e) db); eexists;
      reflexivity.
  - intros k Hk; destruct k as [|[|[|k]]]; auto; lia.
Qed.

(** The four ways a call of [check_for_duplication] ends. *)
Lemma check_for_duplication_cases e t db :
  (exists msg, check_for_duplication e t db = (Raises (ValueError msg), db)
               /\ missing t = true)
  \/ (missing t = false
      /\ ((check_for_duplication e t db = (Raises OperationalError, db)
           /\ (faults e 0%nat = true \/ faults e 1%nat = true))
          \/ (check_for_duplication e t db = (Raises UnicodeEncodeError, db)
              /\ bindable (strip t) = false
              /\ faults e 0%nat = false /\ faults e 1%nat = false)
          \/ (check_for_duplication e t db
              = (Returns (0 <? count_title (strip t) db), db)
              /\ bindable (strip t) = true
              /\ forall k, (k < 2)%nat -> faults e k = false))).
Proof.
  unfold check_for_duplication.
  destruct (missing t); [left; eexists; split; reflexivity|].
  right; split; [reflexivity|].
  run_sql; destruct (bindable (strip t)) eqn:Hb; simpl; split_faults;
    try (left; split; [reflexivity | tauto]);
    try (right; left; split; [reflexivity | tauto]).
  right; right; split; [reflexivity|]; split; [reflexivity|].
  intros k Hk; destruct k as [|[|k]]; auto; lia.
Qed.

Lemma on_day_new n d i t x a : on_day n d (mkRow i t n x a d) = true.
Proof. apply on_day_true; split; reflexivity. Qed.

Lemma entries_on_overwrite e t C d db :
  entries_on (strip C) (today e) (overwrite e t C d db)
  = [mkRow (next_rowid (delete_today (strip C) (today e) db))
           (strip t) (strip C) d (now e) (today e)].
Proof.
  pose proof (entries_on_delete (strip C) (today e) db) as H.
  unfold overwrite, entries_on in *; simpl in *.
  rewrite filter_app, H; simpl.
  rewrite on_day_new; reflexivity.
Qed.


Lemma In_overwrite e t C d db r :
  In r (ideas_log (overwrite e t C d db)) <->
  (In r (ideas_log db)
   /\ (niche r <> strip C \/ generation_date r <> today e))
  \/ r = mkRow (next_rowid (delete_today (strip C) (today e) db))
               (strip t) (strip C) d (now e) (today e).
Proof.
  unfold overwrite, delete_today; simpl.
  rewrite in_app_iff, filter_In, negb_true_iff, on_day_false; simpl.
  intuition.
Qed.

Lemma count_positive {A} (f : A -> bool) (l : list A) :
  (0 <? Z.of_nat (List.length (filter f l))) = true
  <-> (exists x, In x l /\ f x = true).
Proof.
  rewrite Z.ltb_lt; split.
  - destruct (filter f l) as [|x l'] eqn:E; simpl; [lia|].
    intros _; exists x; apply filter_In; rewrite E; left; reflexivity.
  - intros (x & Hx & Hf).
    assert (H : In x (filter f l)) by (apply filter_In; auto).
    destruct (filter f l); [destruct H | simpl; lia].
Qed.

Lemma filter_nothing {A} (f : A -> bool) (l : list A) :
  (forall x, In x l -> f x = false) -> filter f l = [].
Proof.
  induction l as [|x l IH]; simpl; intros H; [reflexivity|].
  rewrite (H x (or_introl eq_refl)); apply IH; auto.
Qed.

Lemma get_current_day_no_rows e C db :
  missing C = false -> storage_ok e -> bindable (strip C) = true ->
  (forall r, In r (ideas_log db) -> niche r <> strip C) ->
  get_current_day e C db = (Returns 0, db).
Proof.
  intros HC Hok Hb Hnone.
  rewrite (get_current_day_runs e C db Hok HC Hb).
  unfold select_today_limit1, select_max_other_days, entries_on.
  rewrite !filter_nothing; [reflexivity | |].
  - intros r Hr; unfold on_other_day.
    destruct (Text.eqb (niche r) (strip C)) eqn:E; [|reflexivity].
    apply eqb_eq in E; destruct (Hnone r Hr E).
  - intros r Hr; apply on_day_false; left; auto.
Qed.

Lemma storage_ok_quiet d : storage_ok (quiet d).
Proof. intros k; reflexivity. Qed.

(** ** What a write does to the reported day *)

(** The same calendar day, after a [log_idea] with day number [d] went
    through, [get_current_day] reports [d - 1], whatever the history. *)
Lemma get_current_day_after_log e e' t C d db db' :
  log_idea e t C d db = (Returns true, db') ->
  storage_ok e' -> today e' = today e ->
  get_current_day e' C db' = (Returns (d - 1), db').
Proof.
  intros H Hok Hday.
  destruct (log_idea_true_bindable _ _ _ _ _ _ H) as [_ Hb].
  apply log_idea_true in H; destruct H as (_ & HC & _ & _ & ->).
  rewrite (get_current_day_runs e' C _ Hok HC Hb).
  unfold select_today_limit1.
  rewrite Hday, entries_on_overwrite; reflexivity.
Qed.

(** Hence a regeneration that reuses the reported day plus one leaves the
    reported day where it was. *)
Lemma regeneration_with_reported_day e e' t C g db db' :
  log_idea e t C (g + 1) db = (Returns true, db') ->
  storage_ok e' -> today e' = today e ->
  get_current_day e' C db' = (Returns g, db').
Proof.
  intros H Hok Hday.
  rewrite (get_current_day_after_log e e' t C (g + 1) db db' H Hok Hday).
  do 2 f_equal; lia.
Qed.

(** ** The scenarios of the specification, run on the model *)

Example end_to_end_scenario :
  exists db1 db2,
    get_current_day (quiet 100) (lit "MMO") empty_db = (Returns 0, empty_db)
    /\ log_idea (quiet 100) (lit "Idea1") (lit "MMO") 1 empty_db
       = (Returns true, db1)
    /\ get_current_day (quiet 100) (lit "MMO") db1 = (Returns 0, db1)
    /\ get_current_day (quiet 101) (lit "MMO") db1 = (Returns 1, db1)
    /\ log_idea (quiet 101) (lit "Idea2") (lit "MMO") 2 db1
       = (Returns true, db2)
    /\ check_for_duplication (quiet 101) (lit "idea1") db2
       = (Returns true, db2)
    /\ check_for_duplication (quiet 101) (lit "idea3") db2
       = (Returns false, db2).
Proof. do 2 eexists; repeat split; reflexivity. Qed.

Example cross_day_advance :
  exists db',
    get_current_day (quiet 100) (lit "MMO") day5_yesterday
    = (Returns 5, day5_yesterday)
    /\ log_idea (quiet 100) (lit "C") (lit "MMO") 6 day5_yesterday
       = (Returns true, db')
    /\ get_current_day (quiet 100) (lit "MMO") db' = (Returns 5, db')
    /\ get_current_day (quiet 101) (lit "MMO") db' = (Returns 6, db').
Proof. eexists; repeat split; reflexivity. Qed.

Example stored_text_is_stripped :
  log_idea (quiet 100) (lit " B ") (lit " MMO ") 1 empty_db
  = (Returns true, mkDb [mkRow 1 (lit "B") (lit "MMO") 1 0 100] 1).
Proof. reflexivity. Qed.

(** ** The claims

    The operations strip surrounding whitespace from their text arguments
    before anything else is done with them, and a text that is empty after
    stripping is rejected as empty.  The statements below are therefore
    about [strip C] and [strip t]: for arguments without surrounding
    whitespace these are [C] and [t] themselves. *)

(** C1 (evaluation of the code where it departs from the claim): on day 100
    an empty store reports day 0 for MMO; the three writes of one batch,
    with day numbers 1, 2 and 3, all return [True]; the same day the
    reported day is then 2, not 0. *)
Theorem same_day_batch_advances_reported_day :
  let e := quiet 100 in
  get_current_day e (lit "MMO") empty_db = (Returns 0, empty_db)
  /\ (exists db1 db2,
        log_idea e (lit "Idea1") (lit "MMO") 1 empty_db = (Returns true, db1)
        /\ log_idea e (lit "Idea2") (lit "MMO") 2 db1 = (Returns true, db2)
        /\ log_idea e (lit "Idea3") (lit "MMO") 3 db2
           = (Returns true, batch_of_three))
  /\ get_current_day e (lit "MMO") batch_of_three
     = (Returns 2, batch_of_three).
Proof.
  cbv zeta; split; [reflexivity|]; split; [|reflexivity].
  eexists; eexists; split; [reflexivity|]; split; reflexivity.
Qed.

(** C2 (counterexample): three niches that are not empty.  For a lone
    surrogate [get_current_day] raises [UnicodeEncodeError] when the niche
    is bound; for two spaces it raises [ValueError]; and for " MMO", a
    niche no row carries, it reports the day 5 of the rows of "MMO". *)
Lemma get_current_day_not_for_every_niche :
  (lone_surrogate <> []
   /\ get_current_day (quiet 100) lone_surrogate empty_db
      = (Raises UnicodeEncodeError, empty_db))
  /\ (lit "  " <> []
      /\ exists msg, get_current_day (quiet 100) (lit "  ") empty_db
                     = (Raises (ValueError msg), empty_db))
  /\ ((forall r, In r (ideas_log day5_yesterday) -> niche r <> lit " MMO")
      /\ get_current_day (quiet 100) (lit " MMO") day5_yesterday
         = (Returns 5, day5_yesterday)).
Proof.
  split; [split; [discriminate | reflexivity]|].
  split; [split; [discriminate | eexists; reflexivity]|].
  split; [|reflexivity].
  intros r [<-|[]]; discriminate.
Qed.

(** C2 (as amended): for a niche that, with surrounding whitespace
    stripped, is not empty and has a UTF-8 encoding, and with the storage
    answering, [get_current_day] returns the largest day number of the
    rows of the stripped niche not dated today (0 without such rows) when
    no row of it is dated today, and otherwise the day number of a row of
    it dated today (the first in the table), minus 1; on an empty store it
    returns 0. *)
Theorem get_current_day_algorithm e C db :
  storage_ok e -> missing C = false -> bindable (strip C) = true ->
  exists m,
    historical_max (strip C) (today e) db m
    /\ ((forall r, In r (ideas_log db) -> niche r = strip C ->
                   generation_date r <> today e) ->
        get_current_day e C db = (Returns m, db))
    /\ ((exists r, In r (ideas_log db) /\ niche r = strip C
                   /\ generation_date r = today e) ->
        exists r rest,
          entries_on (strip C) (today e) db = r :: rest
          /\ In r (ideas_log db) /\ niche r = strip C
          /\ generation_date r = today e
          /\ get_current_day e C db = (Returns (continuation_day r - 1), db))
    /\ (ideas_log db = [] -> get_current_day e C db = (Returns 0, db)).
Proof.
  intros Hok HC Hb.
  rewrite (get_current_day_runs e C db Hok HC Hb).
  unfold select_today_limit1, select_max_other_days.
  set (n := strip C); set (d := today e).
  exists (match sql_max (map continuation_day
                           (filter (on_other_day n d) (ideas_log db))) with
          | Some m => m
          | None => 0
          end).
  repeat split.
  - intros r Hr Hn Hd.
    assert (Hin : In (continuation_day r)
                     (map continuation_day
                        (filter (on_other_day n d) (ideas_log db)))).
    { apply in_map, filter_In; split; [assumption|].
      apply on_other_day_true; auto. }
    destruct (sql_max _) as [m|] eqn:E.
    + apply (proj2 (sql_max_Some _ _ E)); assumption.
    + rewrite (sql_max_None _ E) in Hin; destruct Hin.
  - destruct (sql_max _) as [m|] eqn:E.
    + left.
      destruct (sql_max_Some _ _ E) as [Hin _].
      apply in_map_iff in Hin; destruct Hin as (r & Hday & Hr).
      apply filter_In in Hr; destruct Hr as [Hr Ho].
      apply on_other_day_true in Ho.
      exists r; tauto.
    + right; split; [reflexivity|].
      intros r Hr Hn.
      destruct (Z.eq_dec (generation_date r) d) as [|Hd]; [assumption|].
      exfalso.
      assert (Hin : In (continuation_day r)
                       (map continuation_day
                          (filter (on_other_day n d) (ideas_log db)))).
      { apply in_map, filter_In; split; [assumption|].
        apply on_other_day_true; auto. }
      rewrite (sql_max_None _ E) in Hin; destruct Hin.
  - intros Hnone.
    destruct (entries_on n d db) as [|r l] eqn:E; [reflexivity|].
    exfalso.
    assert (Hin : In r (entries_on n d db)) by (rewrite E; left; reflexivity).
    apply entries_on_In in Hin; destruct Hin as (Hr & Hn & Hd).
    exact (Hnone r Hr Hn Hd).
  - intros (r0 & Hr0 & Hn0 & Hd0).
    assert (Hin0 : In r0 (entries_on n d db)) by (apply entries_on_In; auto).
    destruct (entries_on n d db) as [|r l] eqn:E; [destruct Hin0|].
    assert (Hin : In r (entries_on n d db)) by (rewrite E; left; reflexivity).
    apply entries_on_In in Hin; destruct Hin as (Hr & Hn & Hd).
    exists r, l; auto.
  - intros Hempty; unfold entries_on; rewrite Hempty; reflexivity.
Qed.

Lemma get_current_day_algorithm_witness :
  storage_ok (quiet 100) /\ missing (lit " MMO ") = false
  /\ bindable (strip (lit " MMO ")) = true
  /\ exists m,
       historical_max (strip (lit " MMO ")) 100 day5_yesterday m
       /\ get_current_day (quiet 100) (lit " MMO ") day5_yesterday
          = (Returns m, day5_yesterday).
Proof.
  split; [exact (storage_ok_quiet 100)|]; split; [reflexivity|].
  split; [reflexivity|].
  destruct (get_current_day_algorithm (quiet 100) (lit " MMO ") day5_yesterday
              (storage_ok_quiet 100) eq_refl eq_refl) as (m & Hm & Hnone & _).
  exists m; split; [exact Hm|].
  apply Hnone.
  intros r [<-|[]] _; simpl; discriminate.
Defined.



(** C4 (counterexample): the store with one MMO row of day 5 dated
    yesterday has the progression invariant; [log_idea("B", "MMO", 1)]
    today returns [True] and leaves a store without it. *)
Lemma progression_not_enforced :
  cross_day_increasing day5_yesterday
  /\ none_after 100 day5_yesterday
  /\ log_idea (quiet 100) (lit "B") (lit "MMO") 1 day5_yesterday
     = (Returns true, day5_then_day1)
  /\ ~ cross_day_increasing day5_then_day1.
Proof.
  split; [|split; [|split]].
  - intros r1 r2 [<-|[]] [<-|[]] _ H; simpl in H; lia.
  - intros r [<-|[]]; simpl; lia.
  - reflexivity.
  - intros H.
    assert (H5 : 5 < 1).
    { apply (H (mkRow 1 (lit "A") (lit "MMO") 5 0 99)
               (mkRow 2 (lit "B") (lit "MMO") 1 0 100));
        simpl; auto; lia. }
    lia.
Qed.

(** C4 (as amended): when no row is dated after today and the day number
    passed to [log_idea] exceeds the day number of every row of the niche
    dated before today, [log_idea] keeps the progression invariant, whatever
    it returns; [get_current_day] and [check_for_duplication] leave the
    store as it is. *)
Theorem log_idea_preserves_progression e t C d db :
  cross_day_increasing db -> none_after (today e) db ->
  (forall r, In r (ideas_log db) -> niche r = strip C ->
             generation_date r <> today e -> continuation_day r < d) ->
  cross_day_increasing (snd (log_idea e t C d db))
  /\ none_after (today e) (snd (log_idea e t C d db))
  /\ (forall C', snd (get_current_day e C' db) = db)
  /\ (forall t', snd (check_for_duplication e t' db) = db).
Proof.
  intros Hinv Hpast Hd.
  assert (Hreads : (forall C', snd (get_current_day e C' db) = db)
                   /\ (forall t', snd (check_for_duplication e t' db) = db)).
  { split.
    - intros C'.
      destruct (get_current_day_cases e C' db)
        as [(msg & E & _)|(_ & [(E & _)|[(E & _)|((v & E) & _)]])];
        rewrite E; reflexivity.
    - intros t'.
      destruct (check_for_duplication_cases e t' db)
        as [(msg & E & _)|(_ & [(E & _)|[(E & _)|(E & _)]])];
        rewrite E; reflexivity. }
  destruct (log_idea_store e t C d db) as [E|E]; rewrite E; simpl;
    [tauto|].
  split; [|split; [|exact Hreads]].
  - intros r1 r2 H1 H2 Hn Hlt.
    apply In_overwrite in H1; apply In_overwrite in H2.
    destruct H1 as [[H1 _]| ->], H2 as [[H2 _]| ->]; simpl in *.
    + exact (Hinv r1 r2 H1 H2 Hn Hlt).
    + apply Hd; [assumption.. | lia].
    + pose proof (Hpast r2 H2); lia.
    + lia.
  - intros r Hr; apply In_overwrite in Hr.
    destruct Hr as [[Hr _]| ->]; [exact (Hpast r Hr) | simpl; lia].
Qed.

Lemma log_idea_preserves_progression_witness :
  cross_day_increasing day5_yesterday
  /\ none_after 100 day5_yesterday
  /\ cross_day_increasing
       (snd (log_idea (quiet 100) (lit "B") (lit "MMO") 6 day5_yesterday)).
Proof.
  assert (Hinv : cross_day_increasing day5_yesterday)
    by (intros r1 r2 [<-|[]] [<-|[]] _ H; simpl in H; lia).
  assert (Hpast : none_after (today (quiet 100)) day5_yesterday)
    by (intros r [<-|[]]; simpl; lia).
  split; [exact Hinv|]; split; [exact Hpast|].
  apply (log_idea_preserves_progression (quiet 100) (lit "B") (lit "MMO") 6
           day5_yesterday Hinv Hpast).
  intros r [<-|[]] _ _; simpl; lia.
Defined.

(** C5: [log_idea] raises [ValueError] when the title is empty, when the
    niche is empty or when the day number is below 1, and
    [get_current_day] and [check_for_duplication] raise it when their text
    is empty (empty, or nothing but whitespace); this happens whatever the
    storage layer would do, and the store is the one the call started
    with. *)
Theorem invalid_arguments_rejected e db :
  (forall t C d, missing t = true \/ missing C = true \/ d < 1 ->
     exists msg, log_idea e t C d db = (Raises (ValueError msg), db))
  /\ (forall C, missing C = true ->
        exists msg, get_current_day e C db = (Raises (ValueError msg), db))
  /\ (forall t, missing t = true ->
        exists msg,
          check_for_duplication e t db = (Raises (ValueError msg), db)).
Proof.
  split; [|split].
  - intros t C d H.
    destruct (log_idea_cases e t C d db)
      as [(msg & E & _)|(Ht & HC & Hd & _)]; [eauto|].
    destruct H as [H|[H|H]]; [congruence | congruence | lia].
  - intros C H.
    destruct (get_current_day_cases e C db) as [(msg & E & _)|(HC & _)];
      [eauto | congruence].
  - intros t H.
    destruct (check_for_duplication_cases e t db)
      as [(msg & E & _)|(Ht & _)]; [eauto | congruence].
Qed.

Lemma invalid_arguments_rejected_witness :
  (exists msg, log_idea (failing_at 0 100) (lit "") (lit "MMO") 1 hello_world
               = (Raises (ValueError msg), hello_world))
  /\ (exists msg, log_idea (failing_at 0 100) (lit "T") (lit "MMO") 0 hello_world
                  = (Raises (ValueError msg), hello_world))
  /\ (exists msg, get_current_day (failing_at 0 100) (lit "") hello_world
                  = (Raises (ValueError msg), hello_world)).
Proof.
  destruct (invalid_arguments_rejected (failing_at 0 100) hello_world)
    as (Hlog & Hday & _).
  split; [|split].
  - apply Hlog; left; reflexivity.
  - apply Hlog; right; right; reflexivity.
  - apply Hday; reflexivity.
Defined.

(** C6: with valid arguments [log_idea] never raises, and it returns
    [False] as soon as one of its storage calls fails; [get_current_day]
    and [check_for_duplication] then raise instead of returning a value,
    and what they raise is the storage error -- unless the niche has no
    UTF-8 encoding and the connection and the first query did not fail, for
    then [get_current_day] has raised [UnicodeEncodeError] at its first
    query and the failing call is never made. *)
Theorem storage_failure_policy e db :
  (forall t C d, missing t = false -> missing C = false -> 1 <= d ->
     (exists b db', log_idea e t C d db = (Returns b, db'))
     /\ (fault_within e (log_idea_calls e C db) ->
         log_idea e t C d db = (Returns false, db)))
  /\ (forall C, missing C = false -> fault_within e 3 ->
        exists x,
          get_current_day e C db = (Raises x, db)
          /\ (bindable (strip C) = true \/ fault_within e 2 ->
              x = OperationalError)
          /\ (x = OperationalError
              \/ (x = UnicodeEncodeError /\ bindable (strip C) = false
                  /\ faults e 0%nat = false /\ faults e 1%nat = false)))
  /\ (forall t, missing t = false -> fault_within e 2 ->
        check_for_duplication e t db = (Raises OperationalError, db)).
Proof.
  split; [|split].
  - intros t C d Ht HC Hd.
    destruct (log_idea_cases e t C d db)
      as [(msg & _ & [H|[H|H]])|(_ & _ & _ & [E|(E & _ & Hno & _)])];
      try congruence; try lia.
    + split; [eauto | auto].
    + split; [eauto|].
      intros (k & Hk & Hf); rewrite (Hno k Hk) in Hf; discriminate.
  - intros C HC (k & Hk & Hf).
    destruct (get_current_day_cases e C db)
      as [(msg & _ & H)
         |(_ & [(E & _)|[(E & Hb & F0 & F1)|(_ & _ & Hno)]])];
      [congruence | | |].
    + exists OperationalError; split; [exact E|]; split; auto.
    + exists UnicodeEncodeError; split; [exact E|]; split; [|right; auto].
      intros [Hb'|(k' & Hk' & Hf')]; [congruence|].
      destruct k' as [|[|k']]; [congruence | congruence | lia].
    + rewrite (Hno k Hk) in Hf; discriminate.
  - intros t Ht (k & Hk & Hf).
    destruct (check_for_duplication_cases e t db)
      as [(msg & _ & H)
         |(_ & [(E & _)|[(E & _ & F0 & F1)|(_ & _ & Hno)]])];
      [congruence | exact E | |].
    + destruct k as [|[|k]]; [congruence | congruence | lia].
    + rewrite (Hno k Hk) in Hf; discriminate.
Qed.

Lemma storage_failure_policy_witness :
  fault_within (failing_at 2 100) (log_idea_calls (failing_at 2 100) (lit "MMO") hello_world)
  /\ log_idea (failing_at 2 100) (lit "T") (lit "MMO") 2 hello_world
     = (Returns false, hello_world)
  /\ get_current_day (failing_at 2 100) (lit "MMO") hello_world
     = (Raises OperationalError, hello_world)
  /\ check_for_duplication (failing_at 1 100) (lit "T") hello_world
     = (Raises OperationalError, hello_world).
Proof.
  assert (H2 : fault_within (failing_at 2 100) 3)
    by (exists 2%nat; split; [lia | reflexivity]).
  assert (H5 : fault_within (failing_at 2 100)
                 (log_idea_calls (failing_at 2 100) (lit "MMO") hello_world))
    by (exists 2%nat; split; [vm_compute; lia | reflexivity]).
  assert (H1 : fault_within (failing_at 1 100) 2)
    by (exists 1%nat; split; [lia | reflexivity]).
  split; [exact H5|]; split; [|split].
  - apply (storage_failure_policy (failing_at 2 100) hello_world);
      [reflexivity | reflexivity | lia | exact H5].
  - destruct (storage_failure_policy (failing_at 2 100) hello_world)
      as (_ & Hday & _).
    destruct (Hday (lit "MMO") eq_refl H2) as (x & E & Hx & _).
    rewrite E, (Hx (or_introl eq_refl)); reflexivity.
  - apply (storage_failure_policy (failing_at 1 100) hello_world);
      [reflexivity | exact H1].
Defined.

(** C7 (counterexample): "Cooking" is not one of the three niches, and
    [get_current_day("Cooking")] on the empty store returns 0 instead of
    raising. *)
Lemma unrecognized_niche_not_rejected :
  check_niche (lit "Cooking") = false
  /\ get_current_day (quiet 100) (lit "Cooking") empty_db
     = (Returns 0, empty_db).
Proof. split; reflexivity. Qed.

(** C7 (as amended): an unrecognized niche is not rejected.
    [get_current_day] raises a [ValueError] in two cases only: when the
    niche is empty (empty, or nothing but whitespace), before the storage
    is touched, and when the stripped niche has no UTF-8 encoding and the
    call reaches its first query ([UnicodeEncodeError], a subclass of
    [ValueError]).  Any other niche, recognized or not, is looked up: with
    the storage answering a number is returned, and it is 0 when no row
    carries that niche. *)
Theorem get_current_day_value_errors e C db :
  ((exists x, fst (get_current_day e C db) = Raises x /\ value_error x = true)
   <-> missing C = true
       \/ (bindable (strip C) = false
           /\ faults e 0%nat = false /\ faults e 1%nat = false))
  /\ (missing C = false -> bindable (strip C) = true -> storage_ok e ->
      exists v, get_current_day e C db = (Returns v, db))
  /\ (missing C = false -> bindable (strip C) = true -> storage_ok e ->
      (forall r, In r (ideas_log db) -> niche r <> strip C) ->
      get_current_day e C db = (Returns 0, db)).
Proof.
  split; [|split].
  - destruct (get_current_day_cases e C db)
      as [(msg & E & H)
         |(H & [(E & Hf)|[(E & Hb & F0 & F1)|((v & E) & Hb & Hno)]])];
      rewrite E; simpl.
    + split; [auto | intros _; eexists; split; reflexivity].
    + split; [intros (x & Hx & Hv); injection Hx as <-; discriminate|].
      intros [Hm|(Hb & F0 & F1)]; [congruence|].
      destruct Hf as [Hf|[Hf|[Hb' _]]]; congruence.
    + split; [auto | intros _; eexists; split; reflexivity].
    + split; [intros (x & Hx & _); discriminate|].
      intros [Hm|(Hb' & _)]; congruence.
  - intros HC Hb Hok; rewrite (get_current_day_runs e C db Hok HC Hb); eauto.
  - intros HC Hb Hok Hnone; apply get_current_day_no_rows; assumption.
Qed.

Lemma get_current_day_value_errors_witness :
  missing (lit "Cooking") = false
  /\ bindable (strip (lit "Cooking")) = true
  /\ storage_ok (quiet 100)
  /\ get_current_day (quiet 100) (lit "Cooking") hello_world
     = (Returns 0, hello_world).
Proof.
  split; [reflexivity|]; split; [reflexivity|].
  split; [exact (storage_ok_quiet 100)|].
  apply (get_current_day_value_errors (quiet 100) (lit "Cooking")
           hello_world);
    [reflexivity | reflexivity | exact (storage_ok_quiet 100) |].
  intros r [<-|[]]; simpl; discriminate.
Defined.

(** C8 (counterexample): [check_for_duplication(" hello world")] on the
    store that holds "Hello World" returns [True], although no stored title
    equals " hello world" up to case; for the small e with acute accent it
    returns [False] on a store that holds the capital one; and for a lone
    surrogate, a title that is not empty, it raises. *)
Lemma duplication_not_plain_case_insensitive :
  (check_for_duplication (quiet 101) (lit " hello world") hello_world
   = (Returns true, hello_world)
   /\ forall r, In r (ideas_log hello_world) ->
                ~ equal_ignoring_case (title r) (lit " hello world"))
  /\ check_for_duplication (quiet 101) [233%N] e_acute_store
     = (Returns false, e_acute_store)
  /\ check_for_duplication (quiet 101) lone_surrogate hello_world
     = (Raises UnicodeEncodeError, hello_world).
Proof.
  split; [split; [reflexivity|] | split; reflexivity].
  intros r [<-|[]] H.
  apply Forall2_length in H; discriminate H.
Qed.

(** C8 (as amended): for a title that, with surrounding whitespace
    stripped, is not empty and has a UTF-8 encoding, and with the storage
    answering, [check_for_duplication] returns [True] if and only if some
    row of the table -- whatever its niche and its date -- has a title
    that equals the stripped title up to the case of the letters A to Z;
    every other code point, accented letters included, must be the same. *)
Theorem duplication_iff e t db :
  storage_ok e -> missing t = false -> bindable (strip t) = true ->
  exists b,
    check_for_duplication e t db = (Returns b, db)
    /\ (b = true <->
        exists r, In r (ideas_log db)
                  /\ equal_ignoring_case (title r) (strip t)).
Proof.
  intros Hok Ht Hb.
  destruct (check_for_duplication_cases e t db)
    as [(msg & _ & H)
       |(_ & [(_ & [F|F])|[(_ & Hb' & _)|(E & _)]])];
    try congruence; try (rewrite Hok in F; discriminate).
  eexists; split; [exact E|].
  unfold count_title; rewrite count_positive.
  split; intros (r & Hr & H); exists r; split; auto;
    [apply (proj1 (same_title_letters _ _)), eqb_eq
    | apply eqb_eq, (proj2 (same_title_letters _ _))];
    exact H.
Qed.

Lemma duplication_iff_witness :
  storage_ok (quiet 101) /\ missing (lit "hello world") = false
  /\ bindable (strip (lit "hello world")) = true
  /\ check_for_duplication (quiet 101) (lit "hello world") hello_world
     = (Returns true, hello_world)
  /\ check_for_duplication (quiet 101) (lit "Goodbye") hello_world
     = (Returns false, hello_world).
Proof.
  split; [exact (storage_ok_quiet 101)|]; split; [reflexivity|].
  split; [reflexivity|].
  destruct (duplication_iff (quiet 101) (lit "hello world") hello_world
              (storage_ok_quiet 101) eq_refl eq_refl) as (b & E & Hb).
  split; [|reflexivity].
  rewrite E; f_equal; f_equal; apply Hb.
  eexists; split; [left; reflexivity|].
  apply (proj1 (same_title_letters _ _)); reflexivity.
Defined.



(** C10 (counterexample): " MMO " is not empty and is none of 'MMO',
    'AI/Tech', 'Faceless', yet [log_idea("T", " MMO ", 1)] returns [True]
    and inserts a row of niche "MMO"; and with a title of two spaces,
    which is not empty, [log_idea] raises [ValueError]. *)
Lemma padded_niche_is_inserted :
  (lit " MMO " <> [] /\ check_niche (lit " MMO ") = false
   /\ log_idea (quiet 100) (lit "T") (lit " MMO ") 1 empty_db
      = (Returns true, mkDb [mkRow 1 (lit "T") (lit "MMO") 1 0 100] 1))
  /\ (lit "  " <> [] /\ check_niche (lit "Cooking") = false
      /\ exists msg, log_idea (quiet 100) (lit "  ") (lit "Cooking") 1 empty_db
                     = (Raises (ValueError msg), empty_db)).
Proof.
  split; (split; [discriminate|]; split; [reflexivity|]);
    [reflexivity | eexists; reflexivity].
Qed.

(** C10 (as amended): with a title that is not empty once stripped and a
    day number of at least 1, a call of [log_idea] whose niche, once
    stripped, is not empty and is none of 'MMO', 'AI/Tech', 'Faceless'
    raises nothing and inserts nothing: it returns [False] and the store
    is the one the call started with. *)
Theorem unknown_niche_returns_false e t C d db :
  missing t = false -> 1 <= d -> missing C = false ->
  check_niche (strip C) = false ->
  log_idea e t C d db = (Returns false, db).
Proof.
  intros Ht Hd HC Hn.
  destruct (log_idea_cases e t C d db)
    as [(msg & _ & [H|[H|H]])|(_ & _ & _ & [E|(_ & H & _)])];
    try congruence; lia.
Qed.

Lemma unknown_niche_returns_false_witness :
  missing (lit "T") = false /\ 1 <= 1 /\ missing (lit "Cooking") = false
  /\ check_niche (strip (lit "Cooking")) = false
  /\ log_idea (quiet 100) (lit "T") (lit "Cooking") 1 hello_world
     = (Returns false, hello_world).
Proof.
  repeat (split; [first [reflexivity | lia]|]).
  apply (unknown_niche_returns_false (quiet 100) (lit "T") (lit "Cooking") 1
           hello_world); first [reflexivity | lia].
Defined.

(** * The rest of the database manager *)

(** ** Sorting *)

Section Ordering.

Variable A : Type.
Variable le : A -> A -> bool.

Lemma insert_by_perm x l : Permutation (insert_by le x l) (x :: l).
Proof.
  induction l as [|y l IH]; simpl; [reflexivity|].
  destruct (le x y); [reflexivity|].
  rewrite IH; apply perm_swap.
Qed.

Lemma order_by_perm l : Permutation (order_by le l) l.
Proof.
  induction l as [|x l IH]; simpl; [reflexivity|].
  rewrite insert_by_perm; apply perm_skip; exact IH.
Qed.

Hypothesis le_total : forall a b, le a b = true \/ le b a = true.

Lemma insert_by_sorted x l :
  Sorted (fun a b => le a b = true) l ->
  Sorted (fun a b => le a b = true) (insert_by le x l).
Proof.
  induction l as [|y l IH]; simpl; intros Hs.
  - repeat constructor.
  - destruct (le x y) eqn:E.
    + constructor; [assumption | constructor; assumption].
    + inversion Hs as [|? ? Hl Hhd]; subst.
      constructor; [apply IH; assumption|].
      destruct l as [|z l]; simpl.
      * constructor; destruct (le_total x y); congruence.
      * destruct (le x z).
        -- constructor; destruct (le_total x y); congruence.
        -- inversion Hhd; subst; constructor; assumption.
Qed.

Lemma order_by_sorted l : Sorted (fun a b => le a b = true) (order_by le l).
Proof.
  induction l as [|x l IH]; simpl; [constructor|].
  apply insert_by_sorted; exact IH.
Qed.

End Ordering.

Lemma day_desc_created_desc_iff a b :
  day_desc_created_desc a b = true <-> newer_day_first a b.
Proof.
  unfold day_desc_created_desc, newer_day_first.
  rewrite orb_true_iff, andb_true_iff, Z.ltb_lt, Z.eqb_eq, Z.leb_le; tauto.
Qed.

Lemma created_desc_iff a b : created_desc a b = true <-> newest_first a b.
Proof. unfold created_desc, newest_first; apply Z.leb_le. Qed.

Lemma Sorted_ext {A} (R S : A -> A -> Prop) l :
  (forall a b, R a b -> S a b) -> Sorted R l -> Sorted S l.
Proof.
  intros HRS; induction 1 as [|a l Hl IH Hhd]; constructor; [assumption|].
  destruct Hhd; constructor; auto.
Qed.

Lemma by_day_sorted l :
  StronglySorted newer_day_first (order_by day_desc_created_desc l).
Proof.
  apply Sorted_StronglySorted.
  - intros a b c; unfold newer_day_first; lia.
  - apply Sorted_ext with (R := fun a b => day_desc_created_desc a b = true).
    + intros a b; apply day_desc_created_desc_iff.
    + apply order_by_sorted.
      intros a b; rewrite !day_desc_created_desc_iff.
      unfold newer_day_first; lia.
Qed.

Lemma by_created_sorted l :
  StronglySorted newest_first (order_by created_desc l).
Proof.
  apply Sorted_StronglySorted.
  - intros a b c; unfold newest_first; lia.
  - apply Sorted_ext with (R := fun a b => created_desc a b = true).
    + intros a b; apply created_desc_iff.
    + apply order_by_sorted.
      intros a b; rewrite !created_desc_iff; unfold newest_first; lia.
Qed.

Lemma of_niche_In n db r :
  In r (of_niche n db) <-> In r (ideas_log db) /\ niche r = n.
Proof. unfold of_niche; rewrite filter_In, eqb_eq; tauto. Qed.

(** ** [get_all_ideas] *)

Lemma select_ideas_store n l db : snd (select_ideas n l db) = db.
Proof.
  unfold select_ideas.
  destruct l as [[|p|p]|]; try reflexivity;
    match goal with |- context [fits_int64 ?x] => destruct (fits_int64 x) end;
    reflexivity.
Qed.

Lemma get_all_ideas_runs e n l db :
  storage_ok e ->
  get_all_ideas e n l db =
  (match fst (select_ideas n l db) with
   | Returns r => Returns r
   | Raises _ => Returns []
   end, db).
Proof.
  intros Hok; unfold get_all_ideas; run_sql; rewrite !Hok; simpl.
  pose proof (select_ideas_store n l db) as Hs.
  destruct (select_ideas n l db) as [[r|x] db']; simpl in *; subst;
    reflexivity.
Qed.

(** X1: [get_all_ideas] never raises and never changes the store; when the
    connection or the query fails, or when the limit is not a 64-bit
    integer, it returns the empty list. *)
Theorem get_all_ideas_never_raises e niche_ limit db :
  (exists l, get_all_ideas e niche_ limit db = (Returns l, db))
  /\ (fault_within e 2 -> get_all_ideas e niche_ limit db = (Returns [], db))
  /\ (forall n, limit = Some n -> fits_int64 n = false ->
        get_all_ideas e niche_ limit db = (Returns [], db)).
Proof.
  pose proof (select_ideas_store niche_ limit db) as Hs.
  split; [|split].
  - unfold get_all_ideas; run_sql; split_faults; eauto.
    destruct (select_ideas niche_ limit db) as [[r|x] db']; simpl in *;
      subst; eauto.
  - intros (k & Hk & Hf).
    unfold get_all_ideas; run_sql.
    destruct k as [|[|k]]; [| |lia].
    + rewrite Hf; reflexivity.
    + destruct (faults e 0); [reflexivity|]; simpl; rewrite Hf; reflexivity.
  - intros n -> Hn.
    unfold get_all_ideas; run_sql; split_faults; auto.
    unfold select_ideas in *.
    destruct n as [|p|p]; [discriminate| |]; rewrite Hn in *; reflexivity.
Qed.

Lemma get_all_ideas_never_raises_witness :
  fault_within (failing_at 1 100) 2
  /\ get_all_ideas (failing_at 1 100) (Some (lit "MMO")) None mixed_store
     = (Returns [], mixed_store)
  /\ get_all_ideas (quiet 100) None (Some (2 ^ 63)) mixed_store
     = (Returns [], mixed_store).
Proof.
  assert (H : fault_within (failing_at 1 100) 2)
    by (exists 1%nat; split; [lia | reflexivity]).
  split; [exact H|]; split.
  - apply (get_all_ideas_never_raises (failing_at 1 100) (Some (lit "MMO"))
             None mixed_store); exact H.
  - apply (get_all_ideas_never_raises (quiet 100) None (Some (2 ^ 63))
             mixed_store) with (n := 2 ^ 63); reflexivity.
Defined.

Lemma unlimited_rows niche_ limit db :
  unlimited limit ->
  select_ideas niche_ limit db = select_ideas niche_ None db.
Proof.
  intros [->|(n & -> & Hn)]; [reflexivity|].
  unfold select_ideas.
  destruct n as [|p|p]; [reflexivity | lia |].
  assert (Hfit : fits_int64 (Z.neg p) = true).
  { unfold fits_int64; apply andb_true_iff; split;
      [apply Z.leb_le | apply Z.ltb_lt]; lia. }
  rewrite Hfit; unfold sql_limit.
  replace (Z.neg p <? 0) with true by (symmetry; apply Z.ltb_lt; lia).
  reflexivity.
Qed.

(** X2: asked for a niche, with the storage answering and no limit in
    effect, [get_all_ideas] returns exactly the rows of that niche (read
    with surrounding whitespace stripped), each once, the larger day number
    first and, within a day number, the later write first. *)
Theorem get_all_ideas_of_niche e C limit db :
  storage_ok e -> C <> [] -> unlimited limit ->
  exists rows,
    get_all_ideas e (Some C) limit db = (Returns (map as_tuple rows), db)
    /\ Permutation rows (of_niche (strip C) db)
    /\ (forall r, In r rows <-> In r (ideas_log db) /\ niche r = strip C)
    /\ StronglySorted newer_day_first rows.
Proof.
  intros Hok HC Hlim.
  rewrite (get_all_ideas_runs e _ _ _ Hok), (unlimited_rows _ _ _ Hlim).
  destruct C as [|c C]; [congruence|]; simpl.
  exists (order_by day_desc_created_desc (of_niche (strip (c :: C)) db)).
  split; [reflexivity|]; split; [apply order_by_perm|]; split.
  - intros r; rewrite <- of_niche_In; split; intros H;
      [ apply (Permutation_in _ (order_by_perm _ _ _) H)
      | apply (Permutation_in _ (Permutation_sym (order_by_perm _ _ _)) H) ].
  - apply by_day_sorted.
Qed.

Lemma get_all_ideas_of_niche_witness :
  storage_ok (quiet 100) /\ lit "MMO" <> [] /\ unlimited (Some (-1))
  /\ exists rows,
       get_all_ideas (quiet 100) (Some (lit "MMO")) (Some (-1)) mixed_store
       = (Returns (map as_tuple rows), mixed_store)
       /\ StronglySorted newer_day_first rows.
Proof.
  assert (Hlim : unlimited (Some (-1)))
    by (right; exists (-1); split; [reflexivity | lia]).
  split; [exact (storage_ok_quiet 100)|]; split; [discriminate|].
  split; [exact Hlim|].
  destruct (get_all_ideas_of_niche (quiet 100) (lit "MMO") (Some (-1))
              mixed_store (storage_ok_quiet 100)) as (rows & E & _ & _ & Hs);
    [discriminate | exact Hlim |].
  exists rows; split; assumption.
Defined.

(** X3: without a niche ([None] or the empty text), with the storage
    answering and no limit in effect, [get_all_ideas] returns every row of
    the table, each once, the later write first. *)
Theorem get_all_ideas_every_niche e niche_ limit db :
  storage_ok e -> niche_ = None \/ niche_ = Some [] -> unlimited limit ->
  exists rows,
    get_all_ideas e niche_ limit db = (Returns (map as_tuple rows), db)
    /\ Permutation rows (ideas_log db)
    /\ StronglySorted newest_first rows.
Proof.
  intros Hok Hn Hlim.
  rewrite (get_all_ideas_runs e _ _ _ Hok), (unlimited_rows _ _ _ Hlim).
  exists (order_by created_desc (ideas_log db)).
  split; [destruct Hn as [->| ->]; reflexivity|].
  split; [apply order_by_perm | apply by_created_sorted].
Qed.

Lemma get_all_ideas_every_niche_witness :
  storage_ok (quiet 100) /\ unlimited None
  /\ exists rows,
       get_all_ideas (quiet 100) (Some (lit "")) None mixed_store
       = (Returns (map as_tuple rows), mixed_store)
       /\ Permutation rows (ideas_log mixed_store).
Proof.
  split; [exact (storage_ok_quiet 100)|]; split; [left; reflexivity|].
  destruct (get_all_ideas_every_niche (quiet 100) (Some (lit "")) None
              mixed_store (storage_ok_quiet 100)) as (rows & E & Hp & _);
    [right; reflexivity | left; reflexivity |].
  exists rows; split; assumption.
Defined.

(** X4: a positive limit [n], with the storage answering, cuts the
    unlimited result to its first [n] rows: at most [n] rows come back, and
    all of them when there are no more than [n]. *)
Theorem get_all_ideas_limit e niche_ n db :
  storage_ok e -> 0 < n < 2 ^ 63 ->
  exists every,
    get_all_ideas e niche_ None db = (Returns every, db)
    /\ get_all_ideas e niche_ (Some n) db
       = (Returns (firstn (Z.to_nat n) every), db)
    /\ Z.of_nat (List.length (firstn (Z.to_nat n) every))
       = Z.min n (Z.of_nat (List.length every)).
Proof.
  intros Hok Hn.
  rewrite !(get_all_ideas_runs e _ _ _ Hok).
  assert (Hfit : fits_int64 n = true).
  { unfold fits_int64; apply andb_true_iff; split;
      [apply Z.leb_le | apply Z.ltb_lt]; lia. }
  unfold select_ideas.
  destruct n as [|p|p]; try lia.
  rewrite Hfit; unfold sql_limit; simpl fst.
  replace (Z.pos p <? 0) with false by (symmetry; apply Z.ltb_ge; lia).
  eexists; split; [reflexivity|]; split.
  - rewrite firstn_map; reflexivity.
  - rewrite length_firstn; lia.
Qed.

Lemma get_all_ideas_limit_witness :
  storage_ok (quiet 100) /\ 0 < 2 < 2 ^ 63
  /\ exists every,
       get_all_ideas (quiet 100) None (Some 2) mixed_store
       = (Returns (firstn 2 every), mixed_store)
       /\ List.length every = 3%nat.
Proof.
  split; [exact (storage_ok_quiet 100)|]; split; [lia|].
  destruct (get_all_ideas_limit (quiet 100) None 2 mixed_store
              (storage_ok_quiet 100)) as (every & E0 & E & _); [lia|].
  exists every; split; [exact E|].
  injection E0 as <-; reflexivity.
Defined.

(** X5: a niche of nothing but whitespace is no error for [get_all_ideas]
    and does not mean "every niche" either: when no row has an empty niche
    the result is the empty list, whatever the limit and whatever the
    storage layer does. *)
Theorem get_all_ideas_blank_niche e C limit db :
  C <> [] -> strip C = [] ->
  (forall r, In r (ideas_log db) -> niche r <> []) ->
  get_all_ideas e (Some C) limit db = (Returns [], db).
Proof.
  intros HC Hblank Hrows.
  assert (Hnone : of_niche [] db = []).
  { apply filter_nothing; intros r Hr.
    destruct (Text.eqb (niche r) []) eqn:E; [|reflexivity].
    apply eqb_eq in E; destruct (Hrows r Hr E). }
  unfold get_all_ideas; run_sql; split_faults; auto.
  unfold select_ideas.
  destruct C as [|c C]; [congruence|].
  rewrite Hblank, Hnone; simpl.
  destruct limit as [[|p|p]|]; try reflexivity;
    match goal with |- context [fits_int64 ?x] => destruct (fits_int64 x) end;
    try reflexivity; unfold sql_limit; simpl;
    rewrite ?firstn_nil; reflexivity.
Qed.

Lemma get_all_ideas_blank_niche_witness :
  lit "  " <> [] /\ strip (lit "  ") = []
  /\ get_all_ideas (quiet 100) (Some (lit "  ")) None mixed_store
     = (Returns [], mixed_store).
Proof.
  split; [discriminate|]; split; [reflexivity|].
  apply (get_all_ideas_blank_niche (quiet 100) (lit "  ") None mixed_store);
    [discriminate | reflexivity |].
  intros r [<-|[<-|[<-|[]]]]; discriminate.
Defined.

Lemma check_niche_canonical C :
  check_niche C = true -> strip C = C /\ missing C = false /\ C <> [].
Proof.
  unfold check_niche, NICHES; simpl.
  rewrite !orb_true_iff, !eqb_eq.
  intros [->|[->|[->|H]]]; [| | |discriminate];
    (split; [reflexivity|]; split; [reflexivity | discriminate]).
Qed.

Lemma other_days_all C d db :
  (forall r, In r (ideas_log db) -> niche r = C -> generation_date r <> d) ->
  filter (on_other_day C d) (ideas_log db) = of_niche C db
  /\ entries_on C d db = [].
Proof.
  intros H; split.
  - unfold of_niche; apply filter_ext_in; intros r Hr.
    unfold on_other_day.
    destruct (Text.eqb (niche r) C) eqn:E; [|reflexivity].
    apply eqb_eq in E; simpl.
    apply negb_true_iff, Z.eqb_neq; auto.
  - apply filter_nothing; intros r Hr.
    apply on_day_false.
    destruct (list_eq_dec N.eq_dec (niche r) C) as [E|E]; [right | left];
      auto.
Qed.

(** What [get_current_day] reports for a niche without rows dated today. *)
Lemma reported_day_without_today e C db :
  storage_ok e -> missing C = false -> bindable (strip C) = true ->
  (forall r, In r (ideas_log db) -> niche r = strip C ->
             generation_date r <> today e) ->
  get_current_day e C db =
  (Returns match sql_max (map continuation_day (of_niche (strip C) db)) with
           | Some m => m
           | None => 0
           end, db).
Proof.
  intros Hok HC Hb Hnone.
  destruct (other_days_all _ _ _ Hnone) as [Hother Htoday].
  rewrite (get_current_day_runs e C db Hok HC Hb).
  unfold select_today_limit1, select_max_other_days.
  rewrite Htoday, Hother; reflexivity.
Qed.

(** X6: for one of the three niches, with the storage answering, on a day
    for which the niche has no row yet: [get_current_day] reports the day
    number of the row [get_all_ideas(niche, 1)] returns, and 0 when that
    list is empty. *)
Theorem newest_idea_is_reported_day e C db :
  storage_ok e -> check_niche C = true ->
  (forall r, In r (ideas_log db) -> niche r = C ->
             generation_date r <> today e) ->
  (get_all_ideas e (Some C) (Some 1) db = (Returns [], db)
   /\ get_current_day e C db = (Returns 0, db))
  \/ (exists t,
        get_all_ideas e (Some C) (Some 1) db = (Returns [t], db)
        /\ get_current_day e C db = (Returns (tuple_day t), db)).
Proof.
  intros Hok Hn Hnone.
  destruct (check_niche_canonical C Hn) as (Hs & Hm & HC).
  rewrite (get_all_ideas_runs e _ _ _ Hok).
  rewrite (reported_day_without_today e C db Hok Hm)
    by (rewrite Hs; first [exact Hnone | exact (check_niche_bindable C Hn)]).
  rewrite Hs.
  destruct C as [|c C]; [congruence|].
  unfold select_ideas; rewrite Hs; simpl fst.
  pose proof (order_by_perm _ day_desc_created_desc (of_niche (c :: C) db))
    as Hperm.
  pose proof (by_day_sorted (of_niche (c :: C) db)) as Hsorted.
  destruct (order_by day_desc_created_desc (of_niche (c :: C) db))
    as [|h tl] eqn:E.
  - left; apply Permutation_nil in Hperm; rewrite Hperm; split; reflexivity.
  - right; exists (as_tuple h); split; [reflexivity|].
    unfold tuple_day; simpl.
    destruct (sql_max (map continuation_day (of_niche (c :: C) db)))
      as [m|] eqn:Em.
    + destruct (sql_max_Some _ _ Em) as [Hin Hmax].
      do 2 f_equal; apply Z.le_antisymm.
      * apply in_map_iff in Hin; destruct Hin as (r & <- & Hr).
        apply (Permutation_in _ (Permutation_sym Hperm)) in Hr.
        destruct Hr as [<-|Hr]; [lia|].
        inversion Hsorted as [|? ? _ Hall]; subst.
        rewrite Forall_forall in Hall.
        specialize (Hall r Hr); unfold newer_day_first in Hall; lia.
      * apply Hmax, in_map, (Permutation_in _ Hperm); left; reflexivity.
    + apply sql_max_None, map_eq_nil in Em.
      rewrite Em in Hperm; apply Permutation_sym, Permutation_nil in Hperm.
      discriminate.
Qed.

Lemma newest_idea_is_reported_day_witness :
  storage_ok (quiet 101) /\ check_niche (lit "MMO") = true
  /\ exists t,
       get_all_ideas (quiet 101) (Some (lit "MMO")) (Some 1) mixed_store
       = (Returns [t], mixed_store)
       /\ get_current_day (quiet 101) (lit "MMO") mixed_store
          = (Returns (tuple_day t), mixed_store).
Proof.
  split; [exact (storage_ok_quiet 101)|]; split; [reflexivity|].
  destruct (newest_idea_is_reported_day (quiet 101) (lit "MMO") mixed_store
              (storage_ok_quiet 101) eq_refl) as [[E _]|H].
  - intros r [<-|[<-|[<-|[]]]] _; simpl; discriminate.
  - discriminate E.
  - exact H.
Defined.

(** ** [get_database_stats] *)

Lemma sum_counts_tally n d g : sum_counts (tally n d g) = sum_counts g + 1.
Proof.
  unfold sum_counts; induction g as [|[[m c] x] g IH]; simpl;
    [reflexivity|].
  destruct (Text.eqb m n); simpl; unfold group_count in *; simpl; lia.
Qed.

Lemma group_of_tally n' n d g :
  group_of n' (tally n d g) =
  if Text.eqb n' n then
    Some match group_of n g with
         | Some (c, m) => (c + 1, Z.max m d)
         | None => (1, d)
         end
  else group_of n' g.
Proof.
  induction g as [|[[m c] x] g IH]; simpl.
  - destruct (Text.eqb n' n) eqn:E.
    + apply eqb_eq in E; subst; rewrite eqb_refl; reflexivity.
    + destruct (Text.eqb n n') eqn:E'; [|reflexivity].
      apply eqb_eq in E'; subst; rewrite eqb_refl in E; discriminate.
  - destruct (Text.eqb m n) eqn:Emn; simpl.
    + apply eqb_eq in Emn; subst m.
      destruct (Text.eqb n' n) eqn:E.
      * apply eqb_eq in E; subst; rewrite eqb_refl; reflexivity.
      * destruct (Text.eqb n n') eqn:E'; [|reflexivity].
        apply eqb_eq in E'; subst; rewrite eqb_refl in E; discriminate.
    + rewrite IH.
      destruct (Text.eqb m n') eqn:Emn'; [|reflexivity].
      apply eqb_eq in Emn'; subst m; rewrite Emn; reflexivity.
Qed.

Lemma tally_names n d g :
  map group_niche (tally n d g) =
  if existsb (fun m => Text.eqb m n) (map group_niche g)
  then map group_niche g
  else map group_niche g ++ [n].
Proof.
  induction g as [|[[m c] x] g IH]; simpl; [reflexivity|].
  unfold group_niche at 2; simpl.
  destruct (Text.eqb m n); simpl; [reflexivity|].
  rewrite IH; destruct (existsb _ _); reflexivity.
Qed.

Lemma tally_NoDup n d g :
  NoDup (map group_niche g) -> NoDup (map group_niche (tally n d g)).
Proof.
  intros H; rewrite tally_names.
  destruct (existsb _ _) eqn:E; [assumption|].
  apply NoDup_app; [assumption | repeat constructor; intros [] |].
  intros m Hm [Hmn|[]]; subst m.
  assert (Hex : existsb (fun m0 => Text.eqb m0 n) (map group_niche g) = true)
    by (apply existsb_exists; exists n; split; [assumption | apply eqb_refl]).
  congruence.
Qed.

Lemma group_of_In n c m g :
  NoDup (map group_niche g) ->
  (In (n, c, m) g <-> group_of n g = Some (c, m)).
Proof.
  induction g as [|[[n0 c0] m0] g IH]; simpl; intros Hnd.
  - split; [intros [] | discriminate].
  - inversion Hnd as [|? ? Hnot Hnd']; subst.
    unfold group_niche in Hnot; simpl in Hnot.
    destruct (Text.eqb n0 n) eqn:E.
    + apply eqb_eq in E; subst n0; split.
      * intros [H|H]; [injection H as -> ->; reflexivity|].
        exfalso; apply Hnot.
        apply in_map_iff; exists (n, c, m); split; [reflexivity | assumption].
      * intros H; injection H as -> ->; left; reflexivity.
    + rewrite <- (IH Hnd'); split; [|auto].
      intros [H|H]; [|assumption].
      injection H as -> _ _; rewrite eqb_refl in E; discriminate.
Qed.

Lemma sql_max_snoc l d :
  sql_max (l ++ [d]) =
  Some match sql_max l with Some m => Z.max m d | None => d end.
Proof.
  destruct l as [|x l]; simpl; [reflexivity|].
  rewrite fold_left_app; reflexivity.
Qed.

Lemma tallied_step seen g r :
  tallied seen g ->
  tallied (seen ++ [r]) (tally (niche r) (continuation_day r) g).
Proof.
  intros (Hnd & Hsum & Hgroups); split; [|split].
  - apply tally_NoDup; assumption.
  - rewrite sum_counts_tally, Hsum, length_app; simpl; lia.
  - intros n; rewrite group_of_tally, filter_app; simpl.
    destruct (Text.eqb (niche r) n) eqn:E.
    + apply eqb_eq in E; subst n; rewrite eqb_refl.
      rewrite map_app; simpl; rewrite sql_max_snoc, length_app, Hgroups.
      destruct (sql_max _) eqn:Em; simpl; [do 2 f_equal; lia|].
      apply sql_max_None, map_eq_nil in Em; rewrite Em; reflexivity.
    + destruct (Text.eqb n (niche r)) eqn:E'.
      * apply eqb_eq in E'; subst n; rewrite eqb_refl in E; discriminate.
      * rewrite app_nil_r; apply Hgroups.
Qed.

Lemma tallied_fold rows seen g :
  tallied seen g ->
  tallied (seen ++ rows)
          (fold_left (fun g r => tally (niche r) (continuation_day r) g) rows g).
Proof.
  revert seen g; induction rows as [|r rows IH]; intros seen g H; simpl.
  - rewrite app_nil_r; assumption.
  - replace (seen ++ r :: rows) with ((seen ++ [r]) ++ rows)
      by (rewrite <- app_assoc; reflexivity).
    apply IH, tallied_step; assumption.
Qed.

Lemma group_by_niche_tallied rows : tallied rows (group_by_niche rows).
Proof.
  apply (tallied_fold rows [] []).
  split; [constructor|]; split; reflexivity.
Qed.

Lemma sum_counts_perm g g' : Permutation g g' -> sum_counts g = sum_counts g'.
Proof.
  unfold sum_counts; induction 1; simpl; lia.
Qed.

Lemma by_count_sorted g :
  StronglySorted (fun a b => group_count b <= group_count a)
                 (order_by count_desc g).
Proof.
  apply Sorted_StronglySorted.
  - intros a b c; lia.
  - apply Sorted_ext with (R := fun a b => count_desc a b = true).
    + intros a b; apply Z.leb_le.
    + apply order_by_sorted.
      intros a b; unfold count_desc; rewrite !Z.leb_le; lia.
Qed.

Lemma get_database_stats_runs e db :
  storage_ok e ->
  get_database_stats e db =
  (Returns (StatsDict
              (mkStats (Z.of_nat (List.length (ideas_log db)))
                       (order_by count_desc (group_by_niche (ideas_log db)))
                       (sql_min (map created_at (ideas_log db)))
                       (sql_max (map created_at (ideas_log db))))), db).
Proof.
  intros Hok; unfold get_database_stats; run_sql; rewrite !Hok; reflexivity.
Qed.

(** X7: [get_database_stats] never changes the store; it returns the empty
    dictionary when the connection or one of its three queries fails, and
    the four statistics otherwise. *)
Theorem get_database_stats_failure e db :
  (fault_within e 4 -> get_database_stats e db = (Returns EmptyDict, db))
  /\ ((forall k, (k < 4)%nat -> faults e k = false) ->
      exists s, get_database_stats e db = (Returns (StatsDict s), db)).
Proof.
  split.
  - intros (k & Hk & Hf).
    unfold get_database_stats; run_sql.
    destruct k as [|[|[|[|k]]]]; [| | | |lia];
      split_faults; try reflexivity; congruence.
  - intros Hno; unfold get_database_stats; run_sql.
    rewrite (Hno 0%nat) by lia; simpl; rewrite (Hno 1%nat) by lia; simpl.
    rewrite (Hno 2%nat) by lia; simpl; rewrite (Hno 3%nat) by lia; simpl.
    eauto.
Qed.

Lemma get_database_stats_failure_witness :
  fault_within (failing_at 3 100) 4
  /\ get_database_stats (failing_at 3 100) mixed_store
     = (Returns EmptyDict, mixed_store).
Proof.
  assert (H : fault_within (failing_at 3 100) 4)
    by (exists 3%nat; split; [lia | reflexivity]).
  split; [exact H|].
  apply (get_database_stats_failure (failing_at 3 100) mixed_store); exact H.
Defined.

(** X8: with the storage answering, the statistics are consistent with
    the table: [total_ideas] is the number of rows and the counts of the
    breakdown add up to it; no niche is listed twice; every niche that has
    a row is listed, with the number of its rows (at least 1) and the
    largest day number among them; the breakdown is in descending order of
    count. *)
Theorem get_database_stats_breakdown e db :
  storage_ok e ->
  exists s,
    get_database_stats e db = (Returns (StatsDict s), db)
    /\ total_ideas s = Z.of_nat (List.length (ideas_log db))
    /\ sum_counts (niche_breakdown s) = total_ideas s
    /\ NoDup (map group_niche (niche_breakdown s))
    /\ (forall r, In r (ideas_log db) ->
          exists c m, In (niche r, c, m) (niche_breakdown s))
    /\ (forall n c m, In (n, c, m) (niche_breakdown s) ->
          0 < c /\ c = Z.of_nat (List.length (of_niche n db))
          /\ (exists r, In r (ideas_log db) /\ niche r = n
                        /\ continuation_day r = m)
          /\ forall r, In r (ideas_log db) -> niche r = n ->
                       continuation_day r <= m)
    /\ StronglySorted (fun a b => group_count b <= group_count a)
                      (niche_breakdown s).
Proof.
  intros Hok; rewrite (get_database_stats_runs e db Hok).
  eexists; split; [reflexivity|]; simpl.
  destruct (group_by_niche_tallied (ideas_log db)) as (Hnd & Hsum & Hgroups).
  pose proof (order_by_perm _ count_desc (group_by_niche (ideas_log db)))
    as Hperm.
  assert (Hnd' : NoDup (map group_niche
                          (order_by count_desc (group_by_niche (ideas_log db))))).
  { apply (Permutation_NoDup (l := map group_niche
                                     (group_by_niche (ideas_log db))));
      [apply Permutation_map, Permutation_sym, Hperm | exact Hnd]. }
  split; [reflexivity|]; split; [|split; [exact Hnd'|split; [|split]]].
  - rewrite (sum_counts_perm _ _ Hperm); exact Hsum.
  - intros r Hr.
    assert (Hin : In (continuation_day r)
                    (map continuation_day
                       (filter (fun r' => Text.eqb (niche r') (niche r))
                               (ideas_log db)))).
    { apply in_map, filter_In; split; [assumption | apply eqb_refl]. }
    specialize (Hgroups (niche r)).
    destruct (sql_max _) as [m|] eqn:E.
    + eexists; exists m.
      apply (Permutation_in _ (Permutation_sym Hperm)).
      apply (group_of_In _ _ _ _ Hnd); exact Hgroups.
    + rewrite (sql_max_None _ E) in Hin; destruct Hin.
  - intros n c m Hin.
    apply (Permutation_in _ Hperm) in Hin.
    apply (group_of_In _ _ _ _ Hnd) in Hin.
    rewrite Hgroups in Hin.
    destruct (sql_max _) as [m'|] eqn:E; [|discriminate].
    injection Hin as <- <-.
    destruct (sql_max_Some _ _ E) as [Hm Hmax].
    apply in_map_iff in Hm; destruct Hm as (r & Hday & Hr).
    apply filter_In in Hr; destruct Hr as [Hr Hn]; apply eqb_eq in Hn.
    split; [|split; [reflexivity|split]].
    + assert (Hin : In r (of_niche n db))
        by (apply of_niche_In; auto).
      unfold of_niche in Hin.
      destruct (filter _ (ideas_log db)); [destruct Hin | simpl; lia].
    + exists r; auto.
    + intros r' Hr' Hn'; apply Hmax, in_map, filter_In; split;
        [assumption | apply eqb_eq; assumption].
  - apply by_count_sorted.
Qed.

Lemma get_database_stats_breakdown_witness :
  storage_ok (quiet 100)
  /\ exists s,
       get_database_stats (quiet 100) mixed_store
       = (Returns (StatsDict s), mixed_store)
       /\ sum_counts (niche_breakdown s) = 3.
Proof.
  split; [exact (storage_ok_quiet 100)|].
  destruct (get_database_stats_breakdown (quiet 100) mixed_store
              (storage_ok_quiet 100)) as (s & E & Ht & Hs & _).
  exists s; split; [exact E|].
  rewrite Hs, Ht; reflexivity.
Defined.

(** X9: with the storage answering, for one of the three niches and on a
    day for which the niche has no row yet, [get_current_day] reports the
    [max_day] that [get_database_stats] lists for the niche. *)
Theorem stats_max_day_is_reported_day e e' C c m s db :
  storage_ok e -> storage_ok e' -> check_niche C = true ->
  (forall r, In r (ideas_log db) -> niche r = C ->
             generation_date r <> today e') ->
  get_database_stats e db = (Returns (StatsDict s), db) ->
  In (C, c, m) (niche_breakdown s) ->
  get_current_day e' C db = (Returns m, db).
Proof.
  intros Hok Hok' Hn Hnone Hstats Hin.
  destruct (check_niche_canonical C Hn) as (Hs & Hm & _).
  rewrite (get_database_stats_runs e db Hok) in Hstats.
  injection Hstats as <-; simpl in Hin.
  destruct (group_by_niche_tallied (ideas_log db)) as (Hnd & _ & Hgroups).
  apply (Permutation_in _ (order_by_perm _ count_desc _)) in Hin.
  apply (group_of_In _ _ _ _ Hnd) in Hin.
  rewrite Hgroups in Hin.
  rewrite (reported_day_without_today e' C db Hok' Hm)
    by (rewrite Hs; first [exact Hnone | exact (check_niche_bindable C Hn)]).
  rewrite Hs; unfold of_niche.
  destruct (sql_max _) as [m'|]; [|discriminate].
  injection Hin as _ <-; reflexivity.
Qed.

Lemma stats_max_day_is_reported_day_witness :
  storage_ok (quiet 101) /\ check_niche (lit "MMO") = true
  /\ get_database_stats (quiet 101) mixed_store
     = (Returns (StatsDict
                   (mkStats 3 [(lit "MMO", 2, 6); (lit "Faceless", 1, 2)]
                            (Some 0) (Some 0))), mixed_store)
  /\ get_current_day (quiet 101) (lit "MMO") mixed_store
     = (Returns 6, mixed_store).
Proof.
  split; [exact (storage_ok_quiet 101)|]; split; [reflexivity|].
  split; [reflexivity|].
  apply (stats_max_day_is_reported_day (quiet 101) (quiet 101) (lit "MMO") 2 6
           (mkStats 3 [(lit "MMO", 2, 6); (lit "Faceless", 1, 2)]
                    (Some 0) (Some 0)) mixed_store
           (storage_ok_quiet 101) (storage_ok_quiet 101) eq_refl).
  - intros r [<-|[<-|[<-|[]]]] _; simpl; discriminate.
  - reflexivity.
  - left; reflexivity.
Defined.

(** * The caller: a generation run *)

(** X10: the display name that [create_enhanced_user_prompt] gives a niche
    is mapped back to that niche by the logging loop. *)
Theorem display_names_map_back n display :
  In (n, display) niche_mapping -> db_niche_of display = Some n.
Proof.
  intros [H|[H|[H|[]]]]; injection H as <- <-; vm_compute; reflexivity.
Qed.

Lemma display_names_map_back_witness :
  In (lit "AI/Tech", lit "AI/Tech Tutorials") niche_mapping
  /\ db_niche_of (lit "AI/Tech Tutorials") = Some (lit "AI/Tech").
Proof.
  assert (H : In (lit "AI/Tech", lit "AI/Tech Tutorials") niche_mapping)
    by (right; left; reflexivity).
  split; [exact H | exact (display_names_map_back _ _ H)].
Defined.

Lemma db_niche_of_known display n :
  db_niche_of display = Some n -> check_niche n = true.
Proof.
  unfold db_niche_of.
  repeat match goal with
         | |- context [if ?b then _ else _] => destruct b
         end; intros H; try discriminate; injection H as <-; reflexivity.
Qed.

(** X11: whatever niche text an idea carries, the niche the loop passes to
    [log_idea] is one the table accepts: with the storage answering, a
    title that is not empty and a day number from 1 to 2^63 - 1, the write
    goes through and leaves exactly one row of that niche dated today --
    provided the stripped title has a UTF-8 encoding; if it has none,
    [log_idea] returns [False] and the store is unchanged. *)
Theorem mapped_niche_is_accepted e display n t day db :
  db_niche_of display = Some n ->
  storage_ok e -> missing t = false -> 1 <= day < 2 ^ 63 ->
  (bindable (strip t) = true ->
   exists db' r,
     log_idea e t n day db = (Returns true, db')
     /\ entries_on n (today e) db' = [r]
     /\ title r = strip t /\ continuation_day r = day)
  /\ (bindable (strip t) = false ->
      log_idea e t n day db = (Returns false, db)).
Proof.
  intros Hmap Hok Ht Hday.
  pose proof (db_niche_of_known _ _ Hmap) as Hn.
  destruct (check_niche_canonical n Hn) as (Hs & Hm & _).
  assert (Hfit : fits_int64 day = true).
  { unfold fits_int64; apply andb_true_iff; split;
      [apply Z.leb_le | apply Z.ltb_lt]; lia. }
  split.
  - intros Hb.
    rewrite (log_idea_succeeds e t n day db Hok Ht Hm)
      by (rewrite ?Hs; auto; lia).
    do 2 eexists; split; [reflexivity|].
    rewrite <- Hs at 1; rewrite entries_on_overwrite.
    split; [reflexivity | split; reflexivity].
  - intros Hb.
    destruct (log_idea_cases e t n day db)
      as [(msg & _ & [H|[H|H]])|(_ & _ & _ & [E|(_ & _ & _ & Hb')])];
      try congruence; lia.
Qed.

Lemma mapped_niche_is_accepted_witness :
  db_niche_of (lit "Tech reviews") = Some (lit "AI/Tech")
  /\ storage_ok (quiet 100) /\ missing (lit "T") = false /\ 1 <= 7 < 2 ^ 63
  /\ exists db',
       log_idea (quiet 100) (lit "T") (lit "AI/Tech") 7 mixed_store
       = (Returns true, db').
Proof.
  split; [reflexivity|]; split; [exact (storage_ok_quiet 100)|].
  split; [reflexivity|]; split; [lia|].
  destruct (mapped_niche_is_accepted (quiet 100) (lit "Tech reviews")
              (lit "AI/Tech") (lit "T") 7 mixed_store eq_refl
              (storage_ok_quiet 100) eq_refl) as [Hgood _]; [lia|].
  destruct (Hgood eq_refl) as (db' & r & E & _).
  exists db'; exact E.
Defined.

(** ** What one turn of the loop does *)

Lemma bump_same c n : bump c n n = c n + 1.
Proof. unfold bump; rewrite eqb_refl; reflexivity. Qed.

Lemma bump_other c n m : m <> n -> bump c n m = c m.
Proof.
  intros H; unfold bump.
  destruct (Text.eqb m n) eqn:E; [apply eqb_eq in E; congruence | reflexivity].
Qed.

Lemma bump_ge c n m : c m <= bump c n m.
Proof. unfold bump; destruct (Text.eqb m n); lia. Qed.

Lemma check_for_duplication_store e t db :
  snd (check_for_duplication e t db) = db.
Proof.
  destruct (check_for_duplication_cases e t db)
    as [(msg & E & _)|(_ & [(E & _)|[(E & _)|(E & _)]])];
    rewrite E; reflexivity.
Qed.

Lemma log_idea_not_true e t C d db :
  fst (log_idea e t C d db) <> Returns true -> snd (log_idea e t C d db) = db.
Proof.
  destruct (log_idea_store e t C d db) as [E|E]; [auto|].
  rewrite E; simpl; congruence.
Qed.

(** A turn either leaves counters, log and store alone, or counts one more
    idea for a niche and then writes it -- or fails to. *)
Lemma log_one_shape w s i :
  (session_counters (log_one w s i) = session_counters s
   /\ logged_ideas (log_one w s i) = logged_ideas s
   /\ store (log_one w s i) = store s)
  \/ exists n,
       db_niche_of (idea_niche i) = Some n
       /\ missing (idea_title i) = false
       /\ session_counters (log_one w s i) = bump (session_counters s) n
       /\ ((logged_ideas (log_one w s i) = logged_ideas s
            /\ store (log_one w s i) = store s)
           \/ (logged_ideas (log_one w s i)
               = logged_ideas s ++ [(n, session_counters s n + 1)]
               /\ store (log_one w s i)
                  = overwrite (w (S (tick s))) (idea_title i) n
                              (session_counters s n + 1) (store s))).
Proof.
  unfold log_one.
  destruct (missing (idea_title i)) eqn:Ht; [left; auto|].
  destruct (db_niche_of (idea_niche i)) as [n|] eqn:Hn; [|left; auto].
  pose proof (check_for_duplication_store (w (tick s)) (idea_title i) (store s))
    as Hdup.
  destruct (check_for_duplication (w (tick s)) (idea_title i) (store s))
    as [[[|]|x] db]; simpl in Hdup; subst db; [left; auto | | left; auto].
  right; exists n; split; [reflexivity|]; split; [reflexivity|].
  rewrite bump_same.
  pose proof (log_idea_not_true (w (S (tick s))) (idea_title i) n
                (session_counters s n + 1) (store s)) as Hfail.
  pose proof (log_idea_true (w (S (tick s))) (idea_title i) n
                (session_counters s n + 1) (store s)) as Htrue.
  destruct (log_idea (w (S (tick s))) (idea_title i) n
              (session_counters s n + 1) (store s)) as [[[|]|x] db'];
    simpl in *.
  - split; [reflexivity|]; right; split; [reflexivity|].
    apply (Htrue db' eq_refl).
  - split; [reflexivity|]; left; split; [reflexivity|].
    apply Hfail; discriminate.
  - split; [reflexivity|]; left; split; [reflexivity|].
    apply Hfail; discriminate.
Qed.

Lemma filter_filter_sub {A} (f g : A -> bool) (l : list A) :
  (forall x, f x = true -> g x = true) ->
  filter f (filter g l) = filter f l.
Proof.
  intros H; induction l as [|x l IH]; simpl; [reflexivity|].
  destruct (g x) eqn:Eg; simpl.
  - rewrite IH; reflexivity.
  - destruct (f x) eqn:Ef; [rewrite (H x Ef) in Eg; discriminate | exact IH].
Qed.

(** The rows a selection [f] sees are untouched by an overwrite when [f]
    selects no row of the overwritten niche and day. *)
Lemma overwrite_frame (f : Row -> bool) e t C d db :
  (forall r, f r = true -> on_day (strip C) (today e) r = false) ->
  filter f (ideas_log (overwrite e t C d db)) = filter f (ideas_log db).
Proof.
  intros H; unfold overwrite, delete_today; simpl.
  rewrite filter_app; simpl.
  destruct (f _) eqn:E.
  - apply H in E; rewrite on_day_new in E; discriminate.
  - rewrite app_nil_r; apply filter_filter_sub.
    intros r Hr; rewrite (H r Hr); reflexivity.
Qed.

Lemma overwrite_other_days e t C d db :
  other_days (today e) (overwrite e t C d db) = other_days (today e) db.
Proof.
  apply overwrite_frame; intros r Hr.
  apply on_day_false; right.
  apply negb_true_iff, Z.eqb_neq in Hr; exact Hr.
Qed.

Lemma overwrite_other_niche e t C d db C' d' :
  C' <> strip C ->
  entries_on C' d' (overwrite e t C d db) = entries_on C' d' db.
Proof.
  intros HC; apply overwrite_frame; intros r Hr.
  apply on_day_true in Hr; apply on_day_false; left.
  destruct Hr as [-> _]; exact HC.
Qed.

Lemma log_batch_other_days w d ideas s :
  (forall k, today (w k) = d) ->
  other_days d (store (log_batch w ideas s)) = other_days d (store s).
Proof.
  intros Hday; unfold log_batch.
  revert s; induction ideas as [|i ideas IH]; intros s; simpl;
    [reflexivity|].
  rewrite IH.
  destruct (log_one_shape w s i)
    as [(_ & _ & ->)|(n & _ & _ & _ & [(_ & ->)|(_ & ->)])];
    try reflexivity.
  rewrite <- (Hday (S (tick s))); apply overwrite_other_days.
Qed.

(** X12: a run on one calendar day never touches the rows of other days,
    whatever the ideas and whatever fails on the way. *)
Theorem log_batch_keeps_history w d ideas s :
  (forall k, today (w k) = d) ->
  other_days d (store (log_batch w ideas s)) = other_days d (store s)
  /\ forall r, In r (ideas_log (store s)) -> generation_date r <> d ->
               In r (ideas_log (store (log_batch w ideas s))).
Proof.
  intros Hday; pose proof (log_batch_other_days w d ideas s Hday) as H.
  split; [exact H|].
  intros r Hr Hd.
  assert (Hin : In r (other_days d (store s))).
  { apply filter_In; split; [assumption|].
    apply negb_true_iff, Z.eqb_neq; assumption. }
  rewrite <- H in Hin; apply filter_In in Hin; tauto.
Qed.

Lemma log_batch_keeps_history_witness :
  (forall k : nat, today (failing_at 3 100) = 100)
  /\ other_days 100
       (store (log_batch (fun _ => failing_at 3 100)
                 [mkIdea (lit "T") (lit "Money")]
                 (mkRun mixed_store (day_dict 6 0 2) [] 0 0 0)))
     = [mkRow 1 (lit "A") (lit "MMO") 5 0 99].
Proof.
  split; [reflexivity|].
  rewrite (proj1 (log_batch_keeps_history (fun _ => failing_at 3 100) 100
                    [mkIdea (lit "T") (lit "Money")]
                    (mkRun mixed_store (day_dict 6 0 2) [] 0 0 0)
                    (fun _ => eq_refl))).
  reflexivity.
Defined.

(** ** A run with an answering storage *)

Lemma check_for_duplication_runs e t db :
  storage_ok e -> missing t = false ->
  check_for_duplication e t db
  = (if bindable (strip t) then Returns (0 <? count_title (strip t) db)
     else Raises UnicodeEncodeError, db).
Proof.
  intros Hok Ht; unfold check_for_duplication; rewrite Ht.
  run_sql; rewrite !Hok; destruct (bindable (strip t)); reflexivity.
Qed.

Lemma logged_for_snoc C l n day :
  logged_for C (l ++ [(n, day)])
  = logged_for C l + (if Text.eqb n C then 1 else 0).
Proof.
  unfold logged_for; rewrite filter_app, length_app; simpl.
  destruct (Text.eqb n C); simpl; lia.
Qed.

Lemma log_one_calm w s i :
  (forall k, (tick s <= k)%nat -> storage_ok (w k)) ->
  (forall n, check_niche n = true ->
             0 <= session_counters s n < 2 ^ 63 - 1) ->
  (session_counters (log_one w s i) = session_counters s
   /\ logged_ideas (log_one w s i) = logged_ideas s
   /\ store (log_one w s i) = store s
   /\ db_errors (log_one w s i)
      = db_errors s + (if rejected_at_bind i then 1 else 0))
  \/ exists n,
       check_niche n = true
       /\ session_counters (log_one w s i) = bump (session_counters s) n
       /\ logged_ideas (log_one w s i)
          = logged_ideas s ++ [(n, session_counters s n + 1)]
       /\ store (log_one w s i)
          = overwrite (w (S (tick s))) (idea_title i) n
                      (session_counters s n + 1) (store s)
       /\ db_errors (log_one w s i)
          = db_errors s + (if rejected_at_bind i then 1 else 0).
Proof.
  intros Hok Hbound; unfold log_one, rejected_at_bind.
  destruct (missing (idea_title i)) eqn:Ht; [left; simpl; auto with zarith|].
  destruct (db_niche_of (idea_niche i)) as [n|] eqn:Hn;
    [|left; simpl; auto with zarith].
  rewrite (check_for_duplication_runs _ _ _ (Hok _ (le_n _)) Ht).
  destruct (bindable (strip (idea_title i))) eqn:Hb;
    [|left; simpl; auto].
  destruct (0 <? count_title (strip (idea_title i)) (store s));
    [left; simpl; auto with zarith|].
  pose proof (db_niche_of_known _ _ Hn) as Hck.
  destruct (check_niche_canonical n Hck) as (Hs & Hm & _).
  specialize (Hbound n Hck).
  rewrite bump_same.
  rewrite (log_idea_succeeds (w (S (tick s))) (idea_title i) n
             (session_counters s n + 1) (store s)
             (Hok _ (le_S _ _ (le_n _))) Ht Hm).
  - right; exists n; simpl; auto with zarith.
  - lia.
  - unfold fits_int64; apply andb_true_iff; split;
      [apply Z.leb_le | apply Z.ltb_lt]; lia.
  - rewrite Hs; exact Hck.
  - exact Hb.
Qed.

Lemma batch_progress_refl d s : batch_progress d s s.
Proof.
  intros C _; split; [lia | left; auto].
Qed.

Lemma batch_progress_trans d s1 s2 s3 :
  batch_progress d s1 s2 -> batch_progress d s2 s3 -> batch_progress d s1 s3.
Proof.
  intros H1 H2 C HC.
  destruct (H1 C HC) as [Hc1 Hr1], (H2 C HC) as [Hc2 Hr2].
  split; [lia|].
  destruct Hr2 as [[Hsame2 Hrows2]|[Hlt2 Hrow2]].
  - destruct Hr1 as [[Hsame1 Hrows1]|[Hlt1 (r & Hr & Hd)]].
    + left; split; congruence.
    + right; split; [lia|].
      exists r; split; congruence.
  - right; split; [|exact Hrow2].
    destruct Hr1 as [[Hsame1 _]|[Hlt1 _]]; lia.
Qed.

Lemma log_one_progress w d s i :
  (forall k, (tick s <= k)%nat -> storage_ok (w k)) ->
  (forall k, (tick s <= k)%nat -> today (w k) = d) ->
  (forall n, check_niche n = true ->
             0 <= session_counters s n < 2 ^ 63 - 1) ->
  batch_progress d s (log_one w s i).
Proof.
  intros Hok Hday Hbound.
  destruct (log_one_calm w s i Hok Hbound)
    as [(Hc & Hl & Hs & He)|(n & Hn & Hc & Hl & Hs & He)].
  - intros C _; rewrite Hc, Hl, Hs.
    split; [lia | left; auto].
  - intros C HC; rewrite Hc, Hl, Hs, logged_for_snoc.
    destruct (check_niche_canonical n Hn) as (Hstrip & _ & _).
    destruct (list_eq_dec N.eq_dec C n) as [->|Hne].
    + rewrite bump_same, eqb_refl; split; [lia|].
      right; split; [lia|].
      pose proof (entries_on_overwrite (w (S (tick s))) (idea_title i) n
                    (session_counters s n + 1) (store s)) as E.
      rewrite Hstrip, Hday in E by (apply le_S, le_n); rewrite E.
      eexists; split; reflexivity.
    + rewrite (bump_other _ _ _ Hne).
      destruct (Text.eqb n C) eqn:E;
        [apply eqb_eq in E; congruence|].
      split; [lia|]; left; split; [reflexivity|].
      apply overwrite_other_niche; rewrite Hstrip; exact Hne.
Qed.

Lemma log_one_counter w s i n :
  session_counters s n <= session_counters (log_one w s i) n
  <= session_counters s n + 1.
Proof.
  destruct (log_one_shape w s i) as [(-> & _)|(m & _ & _ & -> & _)];
    [lia|].
  unfold bump; destruct (Text.eqb n m); lia.
Qed.

Lemma log_one_tick w s i : (tick s <= tick (log_one w s i))%nat.
Proof.
  unfold log_one.
  destruct (missing (idea_title i)); [lia|].
  destruct (db_niche_of (idea_niche i)); [|lia].
  destruct (check_for_duplication _ _ _) as [[[|]|x] db]; simpl; try lia.
  destruct (log_idea _ _ _ _ _) as [[[|]|x] db']; simpl; lia.
Qed.

Lemma log_batch_progress w d ideas s :
  (forall k, (tick s <= k)%nat -> storage_ok (w k)) ->
  (forall k, (tick s <= k)%nat -> today (w k) = d) ->
  (forall n, check_niche n = true ->
             0 <= session_counters s n
             /\ session_counters s n + Z.of_nat (List.length ideas) < 2 ^ 63) ->
  batch_progress d s (log_batch w ideas s).
Proof.
  unfold log_batch.
  revert s; induction ideas as [|i ideas IH]; intros s Hok Hday Hbound; simpl.
  - apply batch_progress_refl.
  - pose proof (log_one_tick w s i) as Htick.
    apply batch_progress_trans with (s2 := log_one w s i).
    + apply log_one_progress; auto.
      intros n Hn; specialize (Hbound n Hn); simpl List.length in Hbound; lia.
    + apply IH.
      * intros k Hk; apply Hok; lia.
      * intros k Hk; apply Hday; lia.
      * intros n Hn.
        specialize (Hbound n Hn); simpl List.length in Hbound.
        pose proof (log_one_counter w s i n); lia.
Qed.

Lemma log_batch_errors w ideas s :
  (forall k, (tick s <= k)%nat -> storage_ok (w k)) ->
  (forall n, check_niche n = true ->
             0 <= session_counters s n
             /\ session_counters s n + Z.of_nat (List.length ideas) < 2 ^ 63) ->
  db_errors (log_batch w ideas s)
  = db_errors s + Z.of_nat (List.length (filter rejected_at_bind ideas)).
Proof.
  unfold log_batch.
  revert s; induction ideas as [|i ideas IH]; intros s Hok Hbound;
    [simpl; lia|].
  pose proof (log_one_tick w s i) as Htick.
  assert (He : db_errors (log_one w s i)
               = db_errors s + (if rejected_at_bind i then 1 else 0)).
  { destruct (log_one_calm w s i Hok) as [(_ & _ & _ & He)|(n & _ & _ & _ & _ & He)];
      [|exact He|exact He].
    intros n Hn; specialize (Hbound n Hn); simpl List.length in Hbound; lia. }
  change (fold_left (log_one w) (i :: ideas) s)
    with (fold_left (log_one w) ideas (log_one w s i)).
  rewrite IH, He.
  - change (filter rejected_at_bind (i :: ideas))
      with (if rejected_at_bind i then i :: filter rejected_at_bind ideas
            else filter rejected_at_bind ideas).
    destruct (rejected_at_bind i); simpl List.length; lia.
  - intros k Hk; apply Hok; lia.
  - intros n Hn.
    specialize (Hbound n Hn); simpl List.length in Hbound.
    pose proof (log_one_counter w s i n); lia.
Qed.

(** X13: on one calendar day and with the storage answering, the loop
    counts one error for each idea it takes up whose title has no UTF-8
    encoding (the duplicate check raises on it) and no other, and for each
    of the three niches either it logged nothing and the niche's rows of
    today are as before, or the table holds exactly one row of the niche
    dated today, whose day number is the counter reached: the seed plus
    the number of ideas logged for the niche. *)
Theorem log_batch_one_row_per_niche w d ideas s C :
  (forall k, storage_ok (w k)) -> (forall k, today (w k) = d) ->
  (forall n, check_niche n = true ->
             0 <= session_counters s n
             /\ session_counters s n + Z.of_nat (List.length ideas) < 2 ^ 63) ->
  check_niche C = true ->
  let s' := log_batch w ideas s in
  let logged := logged_for C (logged_ideas s') - logged_for C (logged_ideas s) in
  db_errors s'
  = db_errors s + Z.of_nat (List.length (filter rejected_at_bind ideas))
  /\ session_counters s' C = session_counters s C + logged
  /\ ((logged = 0
       /\ entries_on C d (store s') = entries_on C d (store s))
      \/ (0 < logged
          /\ exists r, entries_on C d (store s') = [r]
                       /\ continuation_day r = session_counters s C + logged)).
Proof.
  intros Hok Hday Hbound HC; cbv zeta.
  pose proof (log_batch_errors w ideas s (fun k _ => Hok k) Hbound) as He.
  pose proof (log_batch_progress w d ideas s (fun k _ => Hok k)
                (fun k _ => Hday k) Hbound) as H.
  destruct (H C HC) as [Hc [[Hsame Hrows]|[Hlt (r & Hr & Hd)]]].
  - split; [exact He|]; split; [exact Hc|]; left; split; [lia | exact Hrows].
  - split; [exact He|]; split; [exact Hc|]; right; split; [lia|].
    exists r; split; [exact Hr | lia].
Qed.

Lemma log_batch_one_row_per_niche_witness :
  (forall k : nat, storage_ok (calm 100 k))
  /\ check_niche (lit "MMO") = true
  /\ db_errors (log_batch (calm 100)
                  [mkIdea (lit "T1") (lit "Money");
                   mkIdea lone_surrogate (lit "Money");
                   mkIdea (lit "T2") (lit "Money")]
                  (mkRun day5_yesterday (day_dict 5 0 0) [] 0 0 3)) = 1
  /\ exists r,
       entries_on (lit "MMO") 100
         (store (log_batch (calm 100)
                   [mkIdea (lit "T1") (lit "Money");
                    mkIdea lone_surrogate (lit "Money");
                    mkIdea (lit "T2") (lit "Money")]
                   (mkRun day5_yesterday (day_dict 5 0 0) [] 0 0 3))) = [r]
       /\ continuation_day r = 7.
Proof.
  split; [intros k; exact (storage_ok_quiet 100)|]; split; [reflexivity|].
  destruct (log_batch_one_row_per_niche (calm 100) 100
              [mkIdea (lit "T1") (lit "Money");
               mkIdea lone_surrogate (lit "Money");
               mkIdea (lit "T2") (lit "Money")]
              (mkRun day5_yesterday (day_dict 5 0 0) [] 0 0 3) (lit "MMO")
              (fun k => storage_ok_quiet 100) (fun k => eq_refl))
    as (He & _ & [[H _]|(_ & r & Hr & Hd)]).
  - intros n Hn; unfold check_niche, NICHES in Hn; simpl in Hn.
    rewrite !orb_true_iff, !eqb_eq in Hn.
    destruct Hn as [->|[->|[->|Hn]]]; [| | |discriminate];
      vm_compute; repeat split; congruence.
  - reflexivity.
  - vm_compute in H; discriminate.
  - split; [rewrite He; reflexivity|].
    exists r; split; [exact Hr|]; rewrite Hd; reflexivity.
Defined.

(** ** The days read at the start of a run *)

Lemma day_dict_at (a b c : Z) (n : str) :
  check_niche n = true ->
  (n = lit "MMO" /\ day_dict a b c n = a)
  \/ (n = lit "AI/Tech" /\ day_dict a b c n = b)
  \/ (n = lit "Faceless" /\ day_dict a b c n = c).
Proof.
  unfold check_niche, NICHES; simpl.
  rewrite !orb_true_iff, !eqb_eq.
  intros [->|[->|[->|H]]]; [| | |discriminate]; auto.
Qed.

Lemma day_dict_zero n : day_dict 0 0 0 n = 0.
Proof.
  unfold day_dict.
  repeat match goal with
         | |- context [if ?b then _ else _] => destruct b
         end; reflexivity.
Qed.

Lemma get_current_day_raises e C db :
  missing C = false -> bindable (strip C) = true -> fault_within e 3 ->
  get_current_day e C db = (Raises OperationalError, db).
Proof.
  intros HC Hb (k & Hk & Hf).
  destruct (get_current_day_cases e C db)
    as [(msg & _ & H)|(_ & [(E & _)|[(_ & Hb' & _)|(_ & _ & Hno)]])];
    [congruence | exact E | congruence | ].
  rewrite (Hno k Hk) in Hf; discriminate.
Qed.

Lemma read_niche_data_calm w db :
  (forall k, (k < 3)%nat -> storage_ok (w k)) ->
  forall k n, nth_error NICHES k = Some n ->
    get_current_day (w k) n db = (Returns (fst (read_niche_data w db) n), db).
Proof.
  intros Hok k n Hnth; unfold read_niche_data.
  rewrite (get_current_day_runs (w 0%nat) (lit "MMO") db)
    by (auto; reflexivity).
  rewrite (get_current_day_runs (w 1%nat) (lit "AI/Tech") db)
    by (auto; reflexivity).
  rewrite (get_current_day_runs (w 2%nat) (lit "Faceless") db)
    by (auto; reflexivity).
  destruct k as [|[|[|k]]]; simpl in Hnth;
    [ | | |destruct k; discriminate]; injection Hnth as <-;
    (rewrite get_current_day_runs by (auto; reflexivity)); reflexivity.
Qed.

Lemma read_niche_data_zero w db :
  (exists k, (k < 3)%nat /\ fault_within (w k) 3) ->
  forall n, fst (read_niche_data w db) n = 0.
Proof.
  intros (k & Hk & Hf) n; unfold read_niche_data.
  destruct k as [|[|[|k]]]; [| | |lia].
  + rewrite (get_current_day_raises (w 0%nat) (lit "MMO") db eq_refl eq_refl Hf).
    apply day_dict_zero.
  + destruct (get_current_day (w 0%nat) (lit "MMO") db) as [[a|x] ?];
      [|apply day_dict_zero].
    rewrite (get_current_day_raises (w 1%nat) (lit "AI/Tech") db eq_refl eq_refl Hf).
    apply day_dict_zero.
  + destruct (get_current_day (w 0%nat) (lit "MMO") db) as [[a|x] ?];
      [|apply day_dict_zero].
    destruct (get_current_day (w 1%nat) (lit "AI/Tech") db) as [[b|y] ?];
      [|apply day_dict_zero].
    rewrite (get_current_day_raises (w 2%nat) (lit "Faceless") db eq_refl eq_refl Hf).
    apply day_dict_zero.
Qed.

(** X14: the three reads at the start of a run.  With the storage
    answering, each niche starts from what [get_current_day] reports for
    it; but as soon as one of the reads fails, all three niches start from
    0, whatever the table holds. *)
Theorem read_niche_data_fallback w db :
  ((forall k, (k < 3)%nat -> storage_ok (w k)) ->
   forall k n, nth_error NICHES k = Some n ->
     get_current_day (w k) n db = (Returns (fst (read_niche_data w db) n), db))
  /\ ((exists k, (k < 3)%nat /\ fault_within (w k) 3) ->
      forall n, fst (read_niche_data w db) n = 0).
Proof.
  split; [apply read_niche_data_calm | apply read_niche_data_zero].
Qed.

Lemma read_niche_data_fallback_witness :
  (exists k, (k < 3)%nat
             /\ fault_within ((fun k => failing_at k 101) k) 3)
  /\ get_current_day (quiet 101) (lit "MMO") day5_yesterday
     = (Returns 5, day5_yesterday)
  /\ fst (read_niche_data (fun k => failing_at k 101) day5_yesterday)
         (lit "MMO") = 0.
Proof.
  assert (H : exists k, (k < 3)%nat
                        /\ fault_within ((fun k => failing_at k 101) k) 3).
  { exists 2%nat; split; [lia|].
    exists 2%nat; split; [lia | reflexivity]. }
  split; [exact H|]; split; [reflexivity|].
  apply (read_niche_data_fallback (fun k => failing_at k 101) day5_yesterday).
  exact H.
Defined.

(** ** What a run does to the reported day *)

Lemma on_other_day_split C d l :
  filter (on_other_day C d) l
  = filter (fun r => Text.eqb (niche r) C)
           (filter (fun r => negb (generation_date r =? d)) l).
Proof.
  induction l as [|r l IH]; simpl; [reflexivity|].
  unfold on_other_day at 1.
  destruct (negb (generation_date r =? d)); simpl;
    destruct (Text.eqb (niche r) C); simpl; rewrite ?IH; reflexivity.
Qed.

Lemma reported_day_bounds e C db B g :
  storage_ok e -> missing C = false -> 0 < B ->
  (forall r, In r (ideas_log db) -> 1 <= continuation_day r < B) ->
  get_current_day e C db = (Returns g, db) -> 0 <= g < B.
Proof.
  intros Hok HC HB Hrows Hret.
  assert (Hb : bindable (strip C) = true).
  { destruct (get_current_day_cases e C db)
      as [(msg & E & _)|(_ & [(E & _)|[(E & _)|(_ & Hb & _)]])];
      congruence. }
  rewrite (get_current_day_runs e C db Hok HC Hb) in Hret.
  injection Hret as <-.
  unfold select_today_limit1, select_max_other_days.
  destruct (entries_on (strip C) (today e) db) as [|r l] eqn:E.
  - destruct (sql_max _) as [m|] eqn:Em; [|lia].
    destruct (sql_max_Some _ _ Em) as [Hin _].
    apply in_map_iff in Hin; destruct Hin as (r & <- & Hr).
    apply filter_In in Hr; specialize (Hrows r (proj1 Hr)); lia.
  - assert (Hin : In r (entries_on (strip C) (today e) db))
      by (rewrite E; left; reflexivity).
    apply entries_on_In in Hin; specialize (Hrows r (proj1 Hin)); lia.
Qed.

(** X15: a whole run on one calendar day, with the storage answering and
    day numbers far from the 64-bit bound.  For each of the three niches:
    if the run logged no idea of the niche, [get_current_day] reports the
    same day after the run as before it; if it logged [k] ideas, the
    reported day has moved from [g] to [g + k - 1]. *)
Theorem run_moves_reported_day w d e ideas db C :
  (forall k, storage_ok (w k)) -> (forall k, today (w k) = d) ->
  storage_ok e -> today e = d -> check_niche C = true ->
  (forall r, In r (ideas_log db) -> 1 <= continuation_day r < 2 ^ 62) ->
  Z.of_nat (List.length ideas) < 2 ^ 62 ->
  let after := track_generation w ideas db in
  let k := logged_for C (logged_ideas after) in
  exists g,
    get_current_day e C db = (Returns g, db)
    /\ get_current_day e C (store after)
       = (Returns (if k =? 0 then g else g + k - 1), store after).
Proof.
  intros Hok Hday Hoke Hdaye HC Hrows Hlen; cbv zeta.
  destruct (check_niche_canonical C HC) as (Hs & Hm & _).
  assert (Hbind : forall n, check_niche n = true -> bindable (strip n) = true).
  { intros n Hn; destruct (check_niche_canonical n Hn) as (Hsn & _).
    rewrite Hsn; exact (check_niche_bindable n Hn). }
  pose proof (read_niche_data_calm w db (fun k _ => Hok k)) as Hread.
  unfold track_generation.
  destruct (read_niche_data w db) as [seed calls] eqn:Eseed; simpl in Hread.
  assert (Hseed : forall n, check_niche n = true ->
                    get_current_day e n db = (Returns (seed n), db)).
  { intros n Hn.
    destruct (check_niche_canonical n Hn) as (_ & Hmn & _).
    assert (Hk : exists k, nth_error NICHES k = Some n).
    { unfold check_niche, NICHES in Hn; simpl in Hn.
      rewrite !orb_true_iff, !eqb_eq in Hn.
      destruct Hn as [->|[->|[->|Hn]]]; [| | |discriminate];
        [exists 0%nat | exists 1%nat | exists 2%nat]; reflexivity. }
    destruct Hk as (k & Hk); specialize (Hread k n Hk).
    rewrite (get_current_day_runs _ _ _ (Hok k) Hmn (Hbind n Hn)) in Hread.
    rewrite (get_current_day_runs _ _ _ Hoke Hmn (Hbind n Hn)).
    rewrite Hday in Hread; rewrite Hdaye; exact Hread. }
  assert (Hbound : forall n, check_niche n = true ->
                     0 <= seed n
                     /\ seed n + Z.of_nat (List.length ideas) < 2 ^ 63).
  { intros n Hn.
    destruct (check_niche_canonical n Hn) as (_ & Hmn & _).
    pose proof (reported_day_bounds e n db (2 ^ 62) (seed n) Hoke Hmn
                  eq_refl Hrows (Hseed n Hn)).
    change (2 ^ 63) with (2 ^ 62 + 2 ^ 62); lia. }
  exists (seed C); split; [exact (Hseed C HC)|].
  set (s0 := mkRun db seed [] 0 0 calls).
  pose proof (log_batch_progress w d ideas s0 (fun k _ => Hok k)
                (fun k _ => Hday k) Hbound) as H.
  destruct (H C HC) as [Hc Hcase]; simpl in Hc.
  change (logged_for C []) with 0 in Hc.
  pose proof (log_batch_other_days w d ideas s0 Hday) as Hother.
  rewrite (get_current_day_runs e C _ Hoke Hm (Hbind C HC)).
  unfold select_today_limit1, select_max_other_days; rewrite Hs, Hdaye.
  destruct Hcase as [[Hsame Hrows']|[Hlt (r & Hr & Hd)]]; simpl in *.
  - replace (logged_for C (logged_ideas (log_batch w ideas s0)) =? 0)
      with true by (symmetry; apply Z.eqb_eq; lia).
    rewrite Hrows', !on_other_day_split.
    unfold other_days in Hother; rewrite Hother.
    pose proof (Hseed C HC) as Hg.
    rewrite (get_current_day_runs e C db Hoke Hm (Hbind C HC)) in Hg.
    unfold select_today_limit1, select_max_other_days in Hg.
    rewrite Hs, Hdaye, on_other_day_split in Hg.
    injection Hg as Hg; rewrite Hg; reflexivity.
  - replace (logged_for C (logged_ideas (log_batch w ideas s0)) =? 0)
      with false by (symmetry; apply Z.eqb_neq; lia).
    rewrite Hr, Hd; do 2 f_equal; lia.
Qed.

Lemma run_moves_reported_day_witness :
  (forall k : nat, storage_ok (calm 100 k)) /\ check_niche (lit "MMO") = true
  /\ get_current_day (quiet 100) (lit "MMO") day5_yesterday
     = (Returns 5, day5_yesterday)
  /\ exists after,
       after = track_generation (calm 100)
                 [mkIdea (lit "T1") (lit "Money");
                  mkIdea (lit "T2") (lit "Money");
                  mkIdea (lit "T3") (lit "Money")] day5_yesterday
       /\ get_current_day (quiet 100) (lit "MMO") (store after)
          = (Returns 7, store after).
Proof.
  split; [intros k; exact (storage_ok_quiet 100)|]; split; [reflexivity|].
  split; [reflexivity|].
  eexists; split; [reflexivity|].
  destruct (run_moves_reported_day (calm 100) 100 (quiet 100)
              [mkIdea (lit "T1") (lit "Money");
               mkIdea (lit "T2") (lit "Money");
               mkIdea (lit "T3") (lit "Money")] day5_yesterday (lit "MMO")
              (fun k => storage_ok_quiet 100) (fun k => eq_refl)
              (storage_ok_quiet 100) eq_refl eq_refl) as (g & Hg & Hafter).
  - intros r [<-|[]]; simpl; lia.
  - simpl; lia.
  - rewrite Hafter; injection Hg as <-; reflexivity.
Defined.

(** ** The order of the log *)

Lemma StronglySorted_snoc {A} (R : A -> A -> Prop) l x :
  StronglySorted R l -> Forall (fun y => R y x) l ->
  StronglySorted R (l ++ [x]).
Proof.
  induction 1 as [|a l Hl IH Ha]; simpl; intros Hx.
  - repeat constructor.
  - inversion Hx; subst; constructor; [auto|].
    apply Forall_app; split; [assumption | repeat constructor; assumption].
Qed.

Lemma log_one_in_order seed w s i :
  log_in_order seed s -> log_in_order seed (log_one w s i).
Proof.
  intros (Hsorted & Hin & Hseed).
  destruct (log_one_shape w s i)
    as [(Hc & Hl & _)|(n & Hn & _ & Hc & [(Hl & _)|(Hl & _)])];
    unfold log_in_order; rewrite Hc, Hl.
  - auto.
  - split; [exact Hsorted|]; split.
    + intros m day H; destruct (Hin m day H) as [Hm Hd]; split; [exact Hm|].
      pose proof (bump_ge (session_counters s) n m); lia.
    + intros m; pose proof (bump_ge (session_counters s) n m).
      specialize (Hseed m); lia.
  - split; [|split].
    + apply StronglySorted_snoc; [exact Hsorted|].
      apply Forall_forall; intros [m day] H; unfold days_increase; simpl.
      intros ->; destruct (Hin n day H); lia.
    + intros m day H; apply in_app_iff in H; destruct H as [H|[H|[]]].
      * destruct (Hin m day H) as [Hm Hd]; split; [exact Hm|].
        pose proof (bump_ge (session_counters s) n m); lia.
      * injection H as <- <-; rewrite bump_same.
        split; [exact (db_niche_of_known _ _ Hn)|].
        specialize (Hseed n); lia.
    + intros m; pose proof (bump_ge (session_counters s) n m).
      specialize (Hseed m); lia.
Qed.

Lemma log_batch_in_order seed w ideas s :
  log_in_order seed s -> log_in_order seed (log_batch w ideas s).
Proof.
  unfold log_batch; revert s; induction ideas as [|i ideas IH]; intros s H;
    simpl; [exact H|].
  apply IH, log_one_in_order; exact H.
Qed.

(** X16: whatever fails during a run, every entry of its log is for one of
    the three niches, with a day number above the day read for the niche
    at the start and up to the niche's counter, and the entries of a niche
    come with strictly increasing day numbers: no day number is logged
    twice in a run. *)
Theorem logged_days_increase w ideas db :
  let after := track_generation w ideas db in
  StronglySorted days_increase (logged_ideas after)
  /\ forall n day, In (n, day) (logged_ideas after) ->
       check_niche n = true
       /\ fst (read_niche_data w db) n < day <= session_counters after n.
Proof.
  cbv zeta; unfold track_generation.
  destruct (read_niche_data w db) as [seed calls]; simpl.
  destruct (log_batch_in_order seed w ideas (mkRun db seed [] 0 0 calls))
    as (Hsorted & Hin & _).
  - split; [constructor|]; split; [intros n day []|]; simpl; intros; lia.
  - split; assumption.
Qed.

(** ** A run after a failed read *)

(** X17: when one of the reads at the start of a run fails, the history
    no longer counts: with the rest of the run on one calendar day and the
    storage answering, a niche for which the run logs [k] ideas (at least
    one) ends with a single row dated today whose day number is [k]. *)
Theorem failed_read_ignores_history w d ideas db C :
  (exists k, (k < 3)%nat /\ fault_within (w k) 3) ->
  (forall k, (snd (read_niche_data w db) <= k)%nat ->
             storage_ok (w k) /\ today (w k) = d) ->
  check_niche C = true -> Z.of_nat (List.length ideas) < 2 ^ 63 ->
  let after := track_generation w ideas db in
  let k := logged_for C (logged_ideas after) in
  0 < k ->
  exists r, entries_on C d (store after) = [r] /\ continuation_day r = k.
Proof.
  intros Hfault Hcalm HC Hlen; cbv zeta.
  pose proof (read_niche_data_zero w db Hfault) as Hzero.
  unfold track_generation.
  destruct (read_niche_data w db) as [seed calls]; simpl in Hzero, Hcalm.
  set (s0 := mkRun db seed [] 0 0 calls).
  assert (H : batch_progress d s0 (log_batch w ideas s0)).
  { apply log_batch_progress.
    - intros k Hk; apply Hcalm; exact Hk.
    - intros k Hk; apply Hcalm; exact Hk.
    - intros n _; simpl; rewrite Hzero; lia. }
  destruct (H C HC) as [Hc Hcase]; simpl in Hc, Hcase.
  change (logged_for C []) with 0 in Hc; rewrite Hzero in Hc, Hcase.
  intros Hk.
  destruct Hcase as [[Hsame _]|[_ (r & Hr & Hd)]]; [lia|].
  exists r; split; [exact Hr | lia].
Qed.

Lemma failed_read_ignores_history_witness :
  (exists k, (k < 3)%nat /\ fault_within (first_read_fails 100 k) 3)
  /\ exists r,
       entries_on (lit "MMO") 100
         (store (track_generation (first_read_fails 100)
                   [mkIdea (lit "T") (lit "Money")] day5_yesterday)) = [r]
       /\ continuation_day r = 1.
Proof.
  assert (H : exists k, (k < 3)%nat /\ fault_within (first_read_fails 100 k) 3).
  { exists 0%nat; split; [lia|].
    exists 0%nat; split; [lia | reflexivity]. }
  split; [exact H|].
  apply (failed_read_ignores_history (first_read_fails 100) 100
           [mkIdea (lit "T") (lit "Money")] day5_yesterday (lit "MMO") H).
  - intros [|k] Hk; [vm_compute in Hk; lia|].
    split; [exact (storage_ok_quiet 100) | reflexivity].
  - reflexivity.
  - simpl; lia.
  - reflexivity.
Defined.

(** ** Titles *)





(** X19: what [log_idea] wrote is found again: once it has returned
    [True], and until the next write, [check_for_duplication] of the same
    title -- in any case of letters -- returns [True], and
    [get_all_ideas] for the niche lists a row with the stripped title, the
    day number given and today's date. *)
Theorem logged_idea_is_found e e' t t' C d db db' :
  log_idea e t C d db = (Returns true, db') ->
  storage_ok e' -> missing t' = false ->
  same_title (strip t') (strip t) ->
  check_for_duplication e' t' db' = (Returns true, db')
  /\ exists rows r,
       get_all_ideas e' (Some C) None db' = (Returns (map as_tuple rows), db')
       /\ In r rows /\ title r = strip t /\ niche r = strip C
       /\ continuation_day r = d /\ generation_date r = today e.
Proof.
  intros H Hok Ht' Hsame.
  assert (Hb : bindable (strip t') = true).
  { rewrite (same_title_bindable _ _ Hsame).
    exact (proj1 (log_idea_true_bindable _ _ _ _ _ _ H)). }
  apply log_idea_true in H; destruct H as (Ht & HC & _ & _ & ->).
  set (new := mkRow (next_rowid (delete_today (strip C) (today e) db))
                    (strip t) (strip C) d (now e) (today e)).
  assert (Hnew : In new (ideas_log (overwrite e t C d db)))
    by (apply In_overwrite; right; reflexivity).
  split.
  - rewrite (check_for_duplication_runs e' t' _ Hok Ht'), Hb.
    do 2 f_equal; unfold count_title; apply count_positive.
    exists new; split; [exact Hnew|].
    apply eqb_eq; symmetry; exact Hsame.
  - rewrite (get_all_ideas_runs e' _ _ _ Hok).
    destruct C as [|c C]; [discriminate HC|]; simpl.
    eexists; exists new; split; [reflexivity|].
    split; [|repeat split; reflexivity].
    apply (Permutation_in _ (Permutation_sym (order_by_perm _ _ _))).
    apply of_niche_In; split; [exact Hnew | reflexivity].
Qed.

Lemma logged_idea_is_found_witness :
  log_idea (quiet 100) (lit " Hello World ") (lit "MMO") 1 empty_db
  = (Returns true, hello_world)
  /\ storage_ok (quiet 101) /\ missing (lit "HELLO world") = false
  /\ check_for_duplication (quiet 101) (lit "HELLO world") hello_world
     = (Returns true, hello_world).
Proof.
  split; [reflexivity|]; split; [exact (storage_ok_quiet 101)|].
  split; [reflexivity|].
  apply (logged_idea_is_found (quiet 100) (quiet 101) (lit " Hello World ")
           (lit "HELLO world") (lit "MMO") 1 empty_db hello_world eq_refl
           (storage_ok_quiet 101) eq_refl eq_refl).
Defined.

(** * More on the three tracker operations *)

(** X20: [log_idea] is all or nothing.  Either it returns [True] and the
    store is the old one with today's rows of the niche replaced by the new
    row, or it does not return [True] and the store is exactly the old one:
    a write that fails after its DELETE leaves today's rows of the niche in
    place. *)
Theorem log_idea_all_or_nothing e t C d db :
  (log_idea e t C d db = (Returns true, overwrite e t C d db)
   \/ (fst (log_idea e t C d db) <> Returns true
       /\ snd (log_idea e t C d db) = db))
  /\ (entries_on (strip C) (today e) db <> [] ->
      entries_on (strip C) (today e) (snd (log_idea e t C d db)) <> []).
Proof.
  assert (H : log_idea e t C d db = (Returns true, overwrite e t C d db)
              \/ (fst (log_idea e t C d db) <> Returns true
                  /\ snd (log_idea e t C d db) = db)).
  { destruct (log_idea_cases e t C d db)
      as [(msg & E & _)|(_ & _ & _ & [E|(E & _)])]; rewrite E; simpl; auto;
      right; (split; [discriminate | reflexivity]). }
  split; [exact H|].
  intros Hsome; destruct H as [E|[_ E]]; rewrite E; simpl; [|exact Hsome].
  rewrite entries_on_overwrite; discriminate.
Qed.

Lemma log_idea_all_or_nothing_witness :
  entries_on (strip (lit "MMO")) 100 hello_world <> []
  /\ log_idea (failing_at 3 100) (lit "T") (lit "MMO") 2 hello_world
     = (Returns false, hello_world)
  /\ entries_on (strip (lit "MMO")) 100
       (snd (log_idea (failing_at 3 100) (lit "T") (lit "MMO") 2 hello_world))
     <> [].
Proof.
  assert (H : entries_on (strip (lit "MMO")) 100 hello_world <> [])
    by discriminate.
  split; [exact H|]; split; [reflexivity|].
  apply (log_idea_all_or_nothing (failing_at 3 100) (lit "T") (lit "MMO") 2
           hello_world); exact H.
Defined.

Lemma fold_max_bounded (l : list Z) (a : Z) :
  (forall x, In x l -> x <= a) -> fold_left Z.max l a = a.
Proof.
  revert a; induction l as [|y l IH]; intros a H; simpl; [reflexivity|].
  rewrite Z.max_l by (apply H; left; reflexivity).
  apply IH; intros x Hx; apply H; right; exact Hx.
Qed.

(** The rows a DELETE keeps still have distinct ids. *)
Lemma kept_ids_distinct (gone : Row -> bool) (rows : list Row) :
  NoDup (map id rows) ->
  NoDup (map id (filter (fun r => negb (gone r)) rows)).
Proof.
  induction rows as [|r rows IH]; simpl; [trivial|].
  rewrite NoDup_cons_iff; intros [Hfresh Hrest].
  destruct (gone r); simpl; [exact (IH Hrest)|].
  apply NoDup_cons; [|exact (IH Hrest)].
  contradict Hfresh.
  apply in_map_iff in Hfresh; destruct Hfresh as (r' & Hid & Hr').
  rewrite <- Hid; apply in_map, (proj1 (filter_In _ _ _) Hr').
Qed.

(** X21: ids are never reused.  On a table whose ids are distinct and not
    beyond the AUTOINCREMENT counter, a [log_idea] that goes through gives
    its row the counter plus one -- an id larger than that of every row
    the table holds or held, the rows it has just deleted included -- and
    the table is again of that kind, whatever [log_idea] returns. *)
Theorem log_idea_fresh_id e t C d db :
  ids_in_sequence db ->
  ids_in_sequence (snd (log_idea e t C d db))
  /\ forall db', log_idea e t C d db = (Returns true, db') ->
       sqlite_sequence db' = sqlite_sequence db + 1
       /\ exists r, entries_on (strip C) (today e) db' = [r]
                    /\ id r = sqlite_sequence db + 1
                    /\ forall r0, In r0 (ideas_log db) -> id r0 < id r.
Proof.
  intros [Hle Hnd].
  assert (Hnext : next_rowid (delete_today (strip C) (today e) db)
                  = sqlite_sequence db + 1).
  { unfold next_rowid, delete_today; simpl.
    rewrite fold_max_bounded; [reflexivity|].
    intros x Hx; apply in_map_iff in Hx; destruct Hx as (r & <- & Hr).
    apply filter_In in Hr; apply Hle; tauto. }
  split.
  - destruct (log_idea_store e t C d db) as [E|E]; rewrite E;
      [split; assumption|].
    unfold ids_in_sequence, overwrite; cbv zeta; simpl snd.
    rewrite Hnext; simpl; split.
    + intros r Hr; unfold delete_today in Hr; simpl in Hr.
      apply in_app_iff in Hr; destruct Hr as [Hr|[<-|[]]]; simpl; [|lia].
      apply filter_In in Hr; specialize (Hle r (proj1 Hr)); lia.
    + unfold delete_today; simpl; rewrite map_app; simpl.
      apply NoDup_app; [apply kept_ids_distinct; exact Hnd
                       | repeat constructor; intros [] |].
      intros x Hx [<-|[]].
      apply in_map_iff in Hx; destruct Hx as (r & Hid & Hr).
      apply filter_In in Hr; specialize (Hle r (proj1 Hr)); lia.
  - intros db' H; apply log_idea_true in H.
    destruct H as (_ & _ & _ & _ & ->).
    split; [simpl; exact Hnext|].
    rewrite entries_on_overwrite, Hnext.
    eexists; split; [reflexivity|]; split; [reflexivity|].
    intros r0 Hr0; simpl; specialize (Hle r0 Hr0); lia.
Qed.

Lemma log_idea_fresh_id_witness :
  ids_in_sequence mixed_store
  /\ ids_in_sequence
       (snd (log_idea (quiet 100) (lit "D") (lit "MMO") 7 mixed_store)).
Proof.
  assert (H : ids_in_sequence mixed_store).
  { split.
    - intros r [<-|[<-|[<-|[]]]]; simpl; lia.
    - simpl; repeat constructor; simpl; intuition discriminate. }
  split; [exact H|].
  apply (log_idea_fresh_id (quiet 100) (lit "D") (lit "MMO") 7 mixed_store H).
Defined.

(** X22: on a table that satisfies its CHECK constraints, a day that
    [get_current_day] returns is never negative, so the caller's next day,
    the report plus one, passes the day test of [log_idea]; with the
    storage answering it does return one for every niche text that is not
    empty and has a UTF-8 encoding, and raises [UnicodeEncodeError] for one
    that has none; and [log_idea] keeps the table within the constraints,
    whatever it returns. *)
Theorem checks_are_kept e e' t C C' d db :
  satisfies_checks db ->
  satisfies_checks (snd (log_idea e t C d db))
  /\ (forall g, get_current_day e' C' db = (Returns g, db) -> 0 <= g)
  /\ (storage_ok e' -> missing C' = false ->
      if bindable (strip C')
      then exists g, get_current_day e' C' db = (Returns g, db) /\ 0 <= g
      else get_current_day e' C' db = (Raises UnicodeEncodeError, db)).
Proof.
  intros Hchecks; split.
  - destruct (log_idea_cases e t C d db)
      as [(msg & E & _)|(_ & _ & Hd & [E|(E & Hn & _)])]; rewrite E; simpl;
      try exact Hchecks.
    intros r Hr; apply In_overwrite in Hr.
    destruct Hr as [[Hr _]| ->]; [exact (Hchecks r Hr)|].
    simpl; split; [lia | exact Hn].
  - assert (Hpos : forall r, In r (ideas_log db) -> 1 <= continuation_day r).
    { intros r Hr; destruct (Hchecks r Hr) as [Hd _]; lia. }
    split; [intros g; apply reported_day_not_negative; exact Hpos|].
    intros Hok HC; destruct (bindable (strip C')) eqn:Hb.
    + pose proof (get_current_day_runs e' C' db Hok HC Hb) as E.
      eexists; split; [exact E|].
      exact (reported_day_not_negative _ _ _ _ Hpos E).
    + destruct (get_current_day_cases e' C' db)
        as [(msg & _ & H)|(_ & [(_ & [H|[H|[H _]]])|[(E & _)|(_ & H & _)]])];
        try congruence; rewrite Hok in H; discriminate.
Qed.

Lemma checks_are_kept_witness :
  satisfies_checks mixed_store
  /\ satisfies_checks
       (snd (log_idea (quiet 100) (lit "D") (lit "MMO") 7 mixed_store)).
Proof.
  assert (H : satisfies_checks mixed_store).
  { intros r [<-|[<-|[<-|[]]]]; simpl; split; (lia || reflexivity). }
  split; [exact H|].
  apply (checks_are_kept (quiet 100) (quiet 100) (lit "D") (lit "MMO")
           (lit "MMO") 7 mixed_store H).
Defined.

(** ** Stripping *)

Lemma lstrip_head s c u : lstrip s = c :: u -> isspace c = false.
Proof.
  induction s as [|x s IH]; simpl; [discriminate|].
  destruct (isspace x) eqn:E; [exact IH|].
  intros H; injection H as <- _; exact E.
Qed.

Lemma lstrip_suffix s : exists p, s = p ++ lstrip s.
Proof.
  induction s as [|x s [p IH]]; simpl; [exists []; reflexivity|].
  destruct (isspace x); [|exists []; reflexivity].
  exists (x :: p); simpl; f_equal; exact IH.
Qed.

Lemma strip_idempotent s : strip (strip s) = strip s.
Proof.
  apply strip_trimmed.
  - intros c u Hs; unfold strip, rstrip in Hs.
    destruct (lstrip s) as [|c0 u0] eqn:E0; [discriminate Hs|].
    pose proof (lstrip_head _ _ _ E0) as Hc0.
    destruct (lstrip_suffix (rev (c0 :: u0))) as [p Hp].
    apply (f_equal (@rev N)) in Hp.
    rewrite rev_involutive, rev_app_distr, Hs in Hp.
    simpl in Hp; injection Hp as -> _; exact Hc0.
  - intros c u Hs; unfold strip, rstrip in Hs.
    rewrite rev_involutive in Hs.
    exact (lstrip_head _ _ _ Hs).
Qed.

Lemma missing_strip s : missing (strip s) = missing s.
Proof.
  unfold missing; rewrite strip_idempotent.
  destruct s; [reflexivity|]; simpl falsy at 3.
  destruct (falsy (strip (n :: s))); reflexivity.
Qed.

(** X23: surrounding whitespace in a text argument makes no difference:
    each of the three operations does with [t] and [C] exactly what it does
    with [t.strip()] and [C.strip()]. *)
Theorem operations_ignore_surrounding_whitespace e t C d db :
  log_idea e t C d db = log_idea e (strip t) (strip C) d db
  /\ get_current_day e C db = get_current_day e (strip C) db
  /\ check_for_duplication e t db = check_for_duplication e (strip t) db.
Proof.
  unfold log_idea, get_current_day, check_for_duplication.
  rewrite !missing_strip, !strip_idempotent; auto.
Qed.

Lemma logged_days_increase_witness :
  logged_ideas (track_generation (calm 100)
                  [mkIdea (lit "T1") (lit "Money");
                   mkIdea (lit "T2") (lit "Money")] day5_yesterday)
  = [(lit "MMO", 6); (lit "MMO", 7)]
  /\ check_niche (lit "MMO") = true
  /\ fst (read_niche_data (calm 100) day5_yesterday) (lit "MMO") < 7.
Proof.
  split; [reflexivity|].
  destruct (logged_days_increase (calm 100)
              [mkIdea (lit "T1") (lit "Money"); mkIdea (lit "T2") (lit "Money")]
              day5_yesterday) as [_ H].
  destruct (H (lit "MMO") 7) as [Hn [Hlt _]];
    [right; left; reflexivity | split; assumption].
Defined.
